(** * PitML: transfer learning for pituitary images

    A shallow embedding of [transfer_learning_PitML_metrics.py] and the
    properties of its training loop, its loss history and its prediction
    visualisation.

    The script is orchestration over PyTorch, torchvision, scikit-learn and
    matplotlib.  The calls into those libraries are kept abstract: the
    tensor runtime is an interface ([Torch]) whose operations are arbitrary
    functions, and every library call the script makes is recorded, in
    order, in a trace of [event]s.  What is modelled exactly is the script's
    own control flow, its accumulators and the Python errors its own
    expressions can raise.

    A library call is taken to return: what PyTorch, matplotlib or
    scikit-learn would raise is outside the model, except the failure of
    [ImageFolder] to load a dataset.

    Python floats are idealised as rationals ([Q]). *)

From Stdlib Require Import List ZArith QArith Qround Bool Arith Lia.
From Stdlib Require Import Permutation String.
Import ListNotations.

Local Open Scope nat_scope.

(** ** The two phases of an epoch: the keys ['train'] and ['val'] *)

Inductive phase := Train | Val.

Definition is_train (ph : phase) : bool :=
  match ph with Train => true | Val => false end.

(** ** Console output

    One constructor per [print] of the script; the elapsed wall-clock time
    is not a value of the model. *)

Inductive line :=
| LClassNames (names : list string)           (* print(class_names) *)
| LEpoch (epoch last : nat)                   (* 'Epoch {}/{}' *)
| LDashes                                     (* '-' * 10 *)
| LPhase (ph : phase) (epoch_loss epoch_acc : Q) (* '{} Loss: {:.4f} Acc: {:.4f}' *)
| LPreds (preds : list nat)                   (* print(preds) *)
| LTime                                       (* 'Training complete in ...' *)
| LBestAcc (best_acc : Q)                     (* 'Best val Acc: {:4f}' *)
| LAccuracy (percent : Z)                     (* 'Accuracy of the network on test image: %d %%' *)
| LGroundtruth (labels : list nat)            (* 'Groundtruth labels: {}' *)
| LPredicted (labels : list nat)              (* 'Predicted labels: {}' *)
| LConfidence (probs : list Q).               (* 'Confidence of predictions: {}' *)

(** ** Library calls, in the order the script makes them *)

Inductive event :=
| Print (l : line)
| SchedulerStep                               (* scheduler.step() *)
| ModelTrain (mode : bool)                    (* model.train(mode); model.eval() is mode False *)
| ZeroGrad                                    (* optimizer.zero_grad() *)
| Forward (grad_enabled : bool)               (* model(inputs) under set_grad_enabled / no_grad *)
| Backward                                    (* loss.backward() *)
| OptimizerStep                               (* optimizer.step() *)
| DeepCopy                                    (* copy.deepcopy(model.state_dict()) *)
| LoadStateDict                               (* model.load_state_dict(...) *)
| PlotLearningCurve (training_loss validation_loss : list Q) (num_epoch : nat)
| Figure                                      (* plt.figure() *)
| Subplot (rows cols index : nat)             (* plt.subplot(rows, cols, index) *)
| AxisOff                                     (* ax.axis('off') *)
| SetTitle (name : string)                    (* ax.set_title('Predicted: {}') *)
| Imshow                                      (* imshow(...) *)
| MakeGrid                                    (* torchvision.utils.make_grid(inputs) *)
| PltIoff                                     (* plt.ioff() *)
| PltShow                                     (* plt.show() *)
| ComputeRocMetrics (groundtruth_labels : list nat) (probs : list Q).

(** Python exceptions the script's own expressions can raise, and the
    error of a failed dataset load. *)

Inductive exn :=
| ZeroDivisionError
| AttributeError
| IndexError
| StopIteration
| LoadFailure (msg : string).

(** ** The tensor runtime

    [weights] is what [model.state_dict()] holds (parameters and buffers).
    A forward pass returns one row per input, so the predictions
    [torch.max(outputs, 1)[1]] of a batch are
    [map (predict mode w inputs) inputs]: in train mode the prediction of a
    sample may depend on the whole batch (batch statistics).  A forward
    pass may also write the buffers of the state dict
    ([forward_buffers]). *)

Class Torch := {
  image : Type;
  weights : Type;
  gradient : Type;
  optimizer : Type;
  scheduler : Type;
  predict : bool -> weights -> list image -> image -> nat;
  forward_buffers : bool -> weights -> list image -> weights;
  criterion : bool -> weights -> list image -> list nat -> Q;
  backward : weights -> list image -> list nat -> gradient -> gradient;
  zero_grad : gradient -> gradient;
  optimizer_step : optimizer -> gradient -> weights -> optimizer * weights;
  scheduler_step : scheduler -> optimizer -> scheduler * optimizer
}.

(** [torch.sum(preds == labels)]: the number of positions where the two
    agree. *)

Fixpoint count_eq (preds labels : list nat) : nat :=
  match preds, labels with
  | p :: ps, l :: ls => (if Nat.eqb p l then 1 else 0) + count_eq ps ls
  | _, _ => 0
  end.

(** [running_corrects] starts as the Python int [0] and becomes a tensor
    with the first [+=]; only a tensor has [.double()]. *)

Inductive counter :=
| PyInt (n : nat)
| Tensor (n : nat).

Definition counter_add (c : counter) (n : nat) : counter :=
  match c with
  | PyInt m => Tensor (m + n)
  | Tensor m => Tensor (m + n)
  end.

Definition counter_val (c : counter) : nat :=
  match c with PyInt n => n | Tensor n => n end.

Definition Qgtb (a b : Q) : bool := negb (Qle_bool a b).

Definition Qnat (n : nat) : Q := inject_Z (Z.of_nat n).

Section World.

Context {T : Torch}.

(** A batch of a loader: the inputs with their labels. *)
Definition batch := list (image * nat).

Definition inputs_of (b : batch) : list image := map fst b.
Definition labels_of (b : batch) : list nat := map snd b.

(** What the script does with [outputs = model(inputs)]: it takes the
    arg-max of every row and, in [train_model], hands it to the loss
    criterion. *)
Record outputs := mkOutputs {
  argmax : list nat;                 (* torch.max(outputs, 1)[1] *)
  loss_item : list nat -> Q          (* criterion(outputs, labels).item() *)
}.

(** ** The world the script acts on: the live model, the optimizer, the
    scheduler, and the trace of calls made so far. *)

Record world := mkWorld {
  state_dict : weights;
  training : bool;
  grad : gradient;
  optim : optimizer;
  sched : scheduler;
  trace : list event
}.

Inductive result (A : Type) :=
| Ok (a : A) (w : world)
| Raise (e : exn) (w : world).

Definition M (A : Type) := world -> result A.

Definition ret {A} (a : A) : M A := fun w => Ok A a w.

Definition bind {A B} (c : M A) (k : A -> M B) : M B :=
  fun w => match c w with
           | Ok _ a w' => k a w'
           | Raise _ e w' => Raise B e w'
           end.

Definition raise {A} (e : exn) : M A := fun w => Raise A e w.

Definition log (e : event) (w : world) : world :=
  mkWorld (state_dict w) (training w) (grad w) (optim w) (sched w)
          (trace w ++ [e]).

Definition emit (e : event) : M unit := fun w => Ok unit tt (log e w).

(** *** The library calls *)

(** [model.training] *)
Definition get_training : M bool := fun w => Ok bool (training w) w.

(** [model.train(mode)] *)
Definition model_train (mode : bool) : M unit :=
  fun w => Ok unit tt
    (mkWorld (state_dict w) mode (grad w) (optim w) (sched w)
             (trace w ++ [ModelTrain mode])).

(** [scheduler.step()]: the scheduler rewrites the optimizer's learning
    rate. *)
Definition call_scheduler_step : M unit :=
  fun w => Ok unit tt
    (mkWorld (state_dict w) (training w) (grad w)
             (snd (scheduler_step (sched w) (optim w)))
             (fst (scheduler_step (sched w) (optim w)))
             (trace w ++ [SchedulerStep])).

(** [optimizer.zero_grad()] *)
Definition call_zero_grad : M unit :=
  fun w => Ok unit tt
    (mkWorld (state_dict w) (training w) (zero_grad (grad w)) (optim w)
             (sched w) (trace w ++ [ZeroGrad])).

(** [outputs = model(inputs)]: the mode of the forward pass is the model's
    own [training] flag; [grad_enabled] is what [torch.set_grad_enabled]
    (or [torch.no_grad]) was given. *)
Definition call_model (grad_enabled : bool) (inputs : list image)
  : M outputs :=
  fun w => Ok outputs
    (mkOutputs (map (predict (training w) (state_dict w) inputs) inputs)
               (criterion (training w) (state_dict w) inputs))
    (mkWorld (forward_buffers (training w) (state_dict w) inputs)
             (training w) (grad w) (optim w) (sched w)
             (trace w ++ [Forward grad_enabled])).

(** [loss.backward()] *)
Definition call_backward (inputs : list image) (labels : list nat)
  : M unit :=
  fun w => Ok unit tt
    (mkWorld (state_dict w) (training w)
             (backward (state_dict w) inputs labels (grad w))
             (optim w) (sched w) (trace w ++ [Backward])).

(** [optimizer.step()] *)
Definition call_optimizer_step : M unit :=
  fun w => Ok unit tt
    (mkWorld (snd (optimizer_step (optim w) (grad w) (state_dict w)))
             (training w) (grad w)
             (fst (optimizer_step (optim w) (grad w) (state_dict w)))
             (sched w) (trace w ++ [OptimizerStep])).

(** [copy.deepcopy(model.state_dict())]: a value, not a reference. *)
Definition deepcopy_state_dict : M weights :=
  fun w => Ok weights (state_dict w) (log DeepCopy w).

(** [model.load_state_dict(wts)] *)
Definition load_state_dict (wts : weights) : M unit :=
  fun w => Ok unit tt
    (mkWorld wts (training w) (grad w) (optim w) (sched w)
             (trace w ++ [LoadStateDict])).

End World.

Arguments Ok {T A} a w.
Arguments Raise {T A} e w.

Declare Scope monad_scope.
Delimit Scope monad_scope with monad.
Notation "x <- c ;; k" := (bind c (fun x => k))
  (at level 61, c at next level, right associativity) : monad_scope.
Notation "' p <- c ;; k" := (bind c (fun x => match x with p => k end))
  (at level 61, p pattern, c at next level, right associativity)
  : monad_scope.
Notation "c ;; k" := (bind c (fun _ => k))
  (at level 61, right associativity) : monad_scope.
Local Open Scope monad_scope.

(** ** [train_model] *)

Section TrainModel.

Context {T : Torch}.

(** *** Module-level data of the script

    [dataloaders[phase]] is iterated once per phase and epoch; with
    [shuffle=True] and the random train transform each pass yields its own
    batches, so the batches are indexed by the epoch of the pass. *)

Variable dataloaders : phase -> nat -> list batch.
Variable dataset_sizes : phase -> nat.

(** The variables of [train_model] that outlive one phase. *)
Record loop_vars := mkVars {
  train_losses : list Q;       (* train_val_losses['train'] *)
  val_losses : list Q;         (* train_val_losses['val'] *)
  best_model_wts : weights;
  best_acc : Q;
  last_preds : list nat        (* preds, printed after the batch loop *)
}.

(** The body of [for inputs, labels in dataloaders[phase]] up to the
    statistics: what the batch adds to them, [loss.item()],
    [inputs.size(0)] and [torch.sum(preds == labels.data)], and [preds]. *)
Definition batch_step (ph : phase) (b : batch) : M (Q * nat * nat * list nat) :=
  let inputs := inputs_of b in
  let labels := labels_of b in
  call_zero_grad ;;
  out <- call_model (is_train ph) inputs ;;
  let preds := argmax out in
  let loss := loss_item out labels in
  (if is_train ph
   then call_backward inputs labels ;; call_optimizer_step
   else ret tt) ;;
  ret (loss, List.length inputs, count_eq preds labels, preds).

(** The whole body: [running_loss += loss.item() * inputs.size(0)] and
    [running_corrects += torch.sum(preds == labels.data)].  The sum of
    the losses is exact here, where the code rounds each step to a
    double; the count of correct predictions is an integer in both. *)
Definition run_batch (ph : phase) (b : batch)
    (acc : Q * counter * list nat) : M (Q * counter * list nat) :=
  let '(running_loss, running_corrects, _) := acc in
  '(loss, size, corrects, preds) <- batch_step ph b ;;
  ret (running_loss + loss * Qnat size,
       counter_add running_corrects corrects,
       preds)%Q.

Fixpoint for_batches (ph : phase) (bs : list batch)
    (acc : Q * counter * list nat) : M (Q * counter * list nat) :=
  match bs with
  | [] => ret acc
  | b :: bs' => acc' <- run_batch ph b acc ;; for_batches ph bs' acc'
  end.

(** [running_loss / dataset_sizes[phase]]: a Python float by an int. *)
Definition float_div (x : Q) (n : nat) : M Q :=
  if Nat.eqb n 0 then raise ZeroDivisionError else ret (x / Qnat n)%Q.

(** [running_corrects.double() / dataset_sizes[phase]] *)
Definition double_div (c : counter) (n : nat) : M Q :=
  match c with
  | PyInt _ => raise AttributeError
  | Tensor k => ret (Qnat k / Qnat n)%Q
  end.

(** [train_val_losses[phase].append(epoch_loss)], and the last [preds]. *)
Definition record_loss (ph : phase) (epoch_loss : Q) (preds : list nat)
    (v : loop_vars) : loop_vars :=
  match ph with
  | Train => mkVars (train_losses v ++ [epoch_loss]) (val_losses v)
                    (best_model_wts v) (best_acc v) preds
  | Val => mkVars (train_losses v) (val_losses v ++ [epoch_loss])
                  (best_model_wts v) (best_acc v) preds
  end.

(** The head of the phase: [scheduler.step(); model.train()] or
    [model.eval()]. *)
Definition enter_phase (ph : phase) : M unit :=
  if is_train ph
  then call_scheduler_step ;; model_train true
  else model_train false.

(** The body of [for phase in ['train', 'val']]. *)
Definition run_phase (ph : phase) (epoch : nat) (v : loop_vars)
  : M loop_vars :=
  enter_phase ph ;;
  '(running_loss, running_corrects, preds) <-
     for_batches ph (dataloaders ph epoch) (0%Q, PyInt 0, last_preds v) ;;
  epoch_loss <- float_div running_loss (dataset_sizes ph) ;;
  epoch_acc <- double_div running_corrects (dataset_sizes ph) ;;
  emit (Print (LPhase ph epoch_loss epoch_acc)) ;;
  emit (Print (LPreds preds)) ;;
  let v' := record_loss ph epoch_loss preds v in
  if negb (is_train ph) && Qgtb epoch_acc (best_acc v)
  then wts <- deepcopy_state_dict ;;
       ret (mkVars (train_losses v') (val_losses v') wts epoch_acc
                   (last_preds v'))
  else ret v'.

(** The body of [for epoch in range(num_epochs)]. *)
Definition run_epoch (num_epochs epoch : nat) (v : loop_vars)
  : M loop_vars :=
  emit (Print (LEpoch epoch (num_epochs - 1))) ;;
  emit (Print LDashes) ;;
  v1 <- run_phase Train epoch v ;;
  v2 <- run_phase Val epoch v1 ;;
  emit (Print (LPreds (last_preds v2))) ;;
  ret v2.

Fixpoint for_epochs (num_epochs : nat) (epochs : list nat) (v : loop_vars)
  : M loop_vars :=
  match epochs with
  | [] => ret v
  | e :: es => v' <- run_epoch num_epochs e v ;; for_epochs num_epochs es v'
  end.

(** [plot_learning_curve]: matplotlib calls only. *)
Definition plot_learning_curve (training_loss validation_loss : list Q)
    (num_epoch : nat) : M unit :=
  emit (PlotLearningCurve training_loss validation_loss num_epoch).

(** [train_model] from its entry through the epochs [epochs] of
    [range(num_epochs)]: the entry snapshot, [best_acc = 0.0], then the
    loop. *)
Definition train_loop (num_epochs : nat) (epochs : list nat)
  : M loop_vars :=
  wts <- deepcopy_state_dict ;;
  for_epochs num_epochs epochs (mkVars [] [] wts 0%Q []).

(** [train_model(model, criterion, optimizer, scheduler, num_epochs)]: the
    model, the optimizer and the scheduler are the world's; the returned
    model is the world's model after the call. *)
Definition train_model (num_epochs : nat) : M unit :=
  v <- train_loop num_epochs (seq 0 num_epochs) ;;
  emit (Print LTime) ;;
  emit (Print (LBestAcc (best_acc v))) ;;
  plot_learning_curve (train_losses v) (val_losses v) num_epochs ;;
  load_state_dict (best_model_wts v).

End TrainModel.

(** ** [visualize_model] *)

Section VisualizeModel.

Context {T : Torch}.

(** The batches of the one pass over [dataloaders['val']], and the
    module-level [class_names]. *)
Variable val_batches : list batch.
Variable class_names : list string.

Record vis_vars := mkVis {
  images_so_far : nat;
  total : nat;
  correct : nat;
  prob_estimates : list Q;
  pred_estimates : list nat;
  pred_groundtruth : list nat
}.

(** Whether the loops go on, or [return] was executed. *)
Inductive flow :=
| Next (v : vis_vars)
| Returned.

(** [class_names[i]] *)
Definition class_name (i : nat) : M string :=
  match nth_error class_names i with
  | Some s => ret s
  | None => raise IndexError
  end.

(** [a / b] on Python ints, with [from __future__ import division]. *)
Definition true_div (a b : nat) : M Q :=
  if Nat.eqb b 0 then raise ZeroDivisionError else ret (Qnat a / Qnat b)%Q.

(** The body of [for j in range(inputs.size()[0])].  [preds] and [labels]
    have one entry per input, so [preds[j]] and [labels[j]] are in
    range.  [plt.subplot] is taken to return, as it does for a grid with
    a row and an index within the grid: that is the case when
    [num_images] is a multiple of 6 other than 0, such as the default
    24. *)
Definition show_sample (num_images : nat) (was_training : bool)
    (preds labels : list nat) (j : nat) (v : vis_vars) : M flow :=
  let shown := images_so_far v + 1 in
  emit (Subplot (num_images / 6) 6 shown) ;;
  emit AxisOff ;;
  name <- class_name (nth j preds 0) ;;
  emit (SetTitle name) ;;
  emit Imshow ;;
  let total' := total v + List.length labels in
  let correct' := correct v + count_eq preds labels in
  probability <- true_div (100 * correct') total' ;;
  let v' := mkVis shown total' correct'
                  (prob_estimates v ++ [probability])
                  (pred_estimates v ++ [nth j preds 0])
                  (pred_groundtruth v ++ [nth j labels 0]) in
  emit (Print (LAccuracy (Qfloor probability))) ;;
  if Nat.eqb shown num_images
  then model_train was_training ;;
       emit (Print (LGroundtruth (pred_groundtruth v'))) ;;
       emit (Print (LPredicted (pred_estimates v'))) ;;
       emit (Print (LConfidence (prob_estimates v'))) ;;
       emit (ComputeRocMetrics (pred_groundtruth v') (prob_estimates v')) ;;
       ret Returned
  else ret (Next v').

Fixpoint for_samples (num_images : nat) (was_training : bool)
    (preds labels : list nat) (js : list nat) (v : vis_vars) : M flow :=
  match js with
  | [] => ret (Next v)
  | j :: js' =>
      r <- show_sample num_images was_training preds labels j v ;;
      match r with
      | Next v' => for_samples num_images was_training preds labels js' v'
      | Returned => ret Returned
      end
  end.

(** The body of [for i, (inputs, labels) in enumerate(dataloaders['val'])],
    under [torch.no_grad()]. *)
Definition show_batch (num_images : nat) (was_training : bool) (b : batch)
    (v : vis_vars) : M flow :=
  let inputs := inputs_of b in
  let labels := labels_of b in
  out <- call_model false inputs ;;
  for_samples num_images was_training (argmax out) labels
              (seq 0 (List.length inputs)) v.

Fixpoint for_val_batches (num_images : nat) (was_training : bool)
    (bs : list batch) (v : vis_vars) : M flow :=
  match bs with
  | [] => ret (Next v)
  | b :: bs' =>
      r <- show_batch num_images was_training b v ;;
      match r with
      | Next v' => for_val_batches num_images was_training bs' v'
      | Returned => ret Returned
      end
  end.

(** [visualize_model(model, num_images)] *)
Definition visualize_model (num_images : nat) : M unit :=
  was_training <- get_training ;;
  model_train false ;;
  emit Figure ;;
  r <- for_val_batches num_images was_training val_batches
         (mkVis 0 0 0 [] [] []) ;;
  match r with
  | Next _ => model_train was_training
  | Returned => ret tt
  end.

End VisualizeModel.

(** ** The script *)

Section Driver.

Context {T : Torch}.

(** What the script uses of [datasets.ImageFolder(root, transform)] and of
    the [DataLoader] built on it: the sorted class-folder names, the number
    of images, and the batches of each iteration over the loader. *)
Record image_folder := mkFolder {
  classes : list string;
  len : nat;
  passes : nat -> list batch
}.

(** [datasets.ImageFolder], which raises when it cannot load [root]. *)
Variable ImageFolder : string -> exn + image_folder.

(** A network moved to the device, with the optimizer and the scheduler
    built on it. *)
Record model := mkModel {
  model_state : weights;
  model_grad : gradient;
  model_optimizer : optimizer;
  model_scheduler : scheduler
}.

Definition load (root : string) : M image_folder :=
  match ImageFolder root with
  | inl e => raise e
  | inr d => ret d
  end.

(** [next(iter(loader))] *)
Definition next_iter (bs : list batch) : M batch :=
  match bs with
  | [] => raise StopIteration
  | b :: _ => ret b
  end.

(** [[class_names[x] for x in classes]] *)
Fixpoint titles (class_names : list string) (labels : list nat)
  : M (list string) :=
  match labels with
  | [] => ret []
  | x :: xs => s <- class_name class_names x ;;
               ss <- titles class_names xs ;;
               ret (s :: ss)
  end.

(** The model, optimizer and scheduler the next calls act on. *)
Definition use_model (m : model) : M unit :=
  fun w => Ok tt (mkWorld (model_state m) true (model_grad m)
                          (model_optimizer m) (model_scheduler m) (trace w)).

(** [train_model(..., num_epochs=5)] then [visualize_model(...)]; the
    loaders have been iterated [train_pass] and [val_pass] times before. *)
Definition scenario (train val : image_folder) (train_pass val_pass : nat)
  : M unit :=
  train_model
    (fun ph e => match ph with
                 | Train => passes train (train_pass + e)
                 | Val => passes val (val_pass + e)
                 end)
    (fun ph => match ph with Train => len train | Val => len val end)
    5 ;;
  visualize_model (passes val (val_pass + 5)) (classes train) 24.

(** The module body, from [image_datasets = ...] on.  The two networks
    are built, moved to the device and given their optimizer and scheduler
    without a call the trace records; they are parameters. *)
Definition main (model_ft model_conv : model) : M unit :=
  train <- load "data/pituitary_data/train" ;;
  val <- load "data/pituitary_data/val" ;;
  let class_names := classes train in
  emit (Print (LClassNames class_names)) ;;
  first <- next_iter (passes train 0) ;;
  emit MakeGrid ;;
  _ <- titles class_names (labels_of first) ;;
  emit Imshow ;;
  use_model model_ft ;;
  scenario train val 1 0 ;;
  use_model model_conv ;;
  scenario train val 6 6 ;;
  emit PltIoff ;;
  emit PltShow.

(** The script run from a fresh interpreter: nothing has been called. *)
Definition script (model_ft model_conv : model) : result unit :=
  main model_ft model_conv
       (mkWorld (model_state model_ft) true (model_grad model_ft)
                (model_optimizer model_ft) (model_scheduler model_ft) []).

End Driver.

(** ** Observables of a run *)

Section Observations.

Context {T : Torch}.

(** The world a computation ends in, whether it returned or raised. *)
Definition final {A} (r : result A) : world :=
  match r with
  | Ok _ w => w
  | Raise _ w => w
  end.

Definition exec {A} (c : M A) (w : world) : world := final (c w).

(** The statistics the batches of a phase contribute, in order: for each
    batch [loss.item()], [inputs.size(0)] and
    [torch.sum(preds == labels.data)]. *)
Fixpoint phase_stats (ph : phase) (bs : list batch) (w : world)
  : list (Q * nat * nat) :=
  match bs with
  | [] => []
  | b :: bs' =>
      match batch_step ph b w with
      | Ok (loss, size, corrects, _) w' =>
          (loss, size, corrects) :: phase_stats ph bs' w'
      | Raise _ _ => []
      end
  end.

(** The sum over the batches of batch loss times batch size, and the
    total count of correct predictions. *)
Fixpoint weighted_loss (stats : list (Q * nat * nat)) : Q :=
  match stats with
  | [] => 0
  | (loss, size, _) :: rest => loss * Qnat size + weighted_loss rest
  end.

Fixpoint total_corrects (stats : list (Q * nat * nat)) : nat :=
  match stats with
  | [] => 0
  | (_, _, corrects) :: rest => corrects + total_corrects rest
  end.

(** The calls one batch of a phase makes. *)
Definition batch_events (ph : phase) : list event :=
  match ph with
  | Train => [ZeroGrad; Forward true; Backward; OptimizerStep]
  | Val => [ZeroGrad; Forward false]
  end.

(** The calls at the head of a phase. *)
Definition enter_events (ph : phase) : list event :=
  match ph with
  | Train => [SchedulerStep; ModelTrain true]
  | Val => [ModelTrain false]
  end.

Definition is_scheduler_step (e : event) : bool :=
  match e with SchedulerStep => true | _ => false end.

Definition is_imshow (e : event) : bool :=
  match e with Imshow => true | _ => false end.

Definition is_compute_roc (e : event) : bool :=
  match e with ComputeRocMetrics _ _ => true | _ => false end.

(** The three prints of the accumulated arrays. *)
Definition is_array_print (e : event) : bool :=
  match e with
  | Print (LGroundtruth _) | Print (LPredicted _) | Print (LConfidence _) =>
      true
  | _ => false
  end.

(** The calls that compute gradients or change parameters: a forward
    pass that tracks gradients, [loss.backward()], [optimizer.step()]. *)
Definition is_gradient_call (e : event) : bool :=
  match e with
  | Forward true | Backward | OptimizerStep => true
  | _ => false
  end.

Definition is_forward (e : event) : bool :=
  match e with Forward _ => true | _ => false end.

Definition count (p : event -> bool) (evs : list event) : nat :=
  List.length (filter p evs).

(** *** What the script relies on from the runtime and the loaders *)

(** In eval mode a forward pass writes nothing into the state dict
    (BatchNorm uses its running statistics and does not update them). *)
Definition eval_is_pure : Prop :=
  forall w xs, forward_buffers false w xs = w.

(** In eval mode the prediction for an input does not depend on the batch
    it is in. *)
Definition eval_is_pointwise : Prop :=
  forall w xs x, predict false w xs x = predict false w [x] x.

(** [ImageFolder] refuses a folder without images, so a dataset is not
    empty and a pass over its loader yields at least one batch. *)
Definition loaders_nonempty (dataloaders : phase -> nat -> list batch)
    (dataset_sizes : phase -> nat) : Prop :=
  (forall ph, dataset_sizes ph <> 0) /\
  (forall ph e, dataloaders ph e <> []).

(** Every pass over the validation loader yields each item of the
    validation set [val_set] exactly once (the validation transform is
    deterministic). *)
Definition val_loader_covers (dataloaders : phase -> nat -> list batch)
    (dataset_sizes : phase -> nat) (val_set : list (image * nat)) : Prop :=
  dataset_sizes Val = List.length val_set /\
  forall e, Permutation (List.concat (dataloaders Val e)) val_set.

(** *** Validation accuracy *)

(** The number of correct predictions of the weights [w], in eval mode, on
    a batch. *)
Definition corrects_on (w : weights) (b : batch) : nat :=
  count_eq (map (predict false w (inputs_of b)) (inputs_of b)) (labels_of b).

Fixpoint corrects_over (w : weights) (bs : list batch) : nat :=
  match bs with
  | [] => 0
  | b :: bs' => corrects_on w b + corrects_over w bs'
  end.

(** The validation accuracy the VAL phase measures for the weights [w] on
    the batches [bs]. *)
Definition measured_acc (size : nat) (w : weights) (bs : list batch) : Q :=
  (Qnat (corrects_over w bs) / Qnat size)%Q.

(** The class the model with weights [w] assigns to one image, in eval
    mode. *)
Definition classify (w : weights) (x : image) : nat := predict false w [x] x.

Definition classified_right (w : weights) (s : image * nat) : bool :=
  Nat.eqb (classify w (fst s)) (snd s).

(** The validation accuracy of the weights [w]: the fraction of the
    validation set they classify right. *)
Definition val_accuracy (val_set : list (image * nat)) (w : weights) : Q :=
  (Qnat (List.length (filter (classified_right w) val_set))
   / Qnat (List.length val_set))%Q.

(** The cumulative running accuracy, in percent, over the first [k]
    samples shown: 100 times the number predicted right among them,
    divided by [k]. *)
Definition running_accuracy (w : weights) (shown : list (image * nat)) : Q :=
  (Qnat (100 * List.length (filter (classified_right w) shown))
   / Qnat (List.length shown))%Q.

End Observations.

Section Runs.

Context {T : Torch}.
Variable dataloaders : phase -> nat -> list batch.
Variable dataset_sizes : phase -> nat.

(** The live weights when the first [k] epochs of
    [train_model(..., num_epochs)] are done, and the validation accuracy
    epoch [e] measures. *)
Definition live_after (num_epochs k : nat) (w0 : world) : weights :=
  state_dict
    (exec (train_loop dataloaders dataset_sizes num_epochs (seq 0 k)) w0).

Definition epoch_val_acc (num_epochs e : nat) (w0 : world) : Q :=
  measured_acc (dataset_sizes Val) (live_after num_epochs (S e) w0)
               (dataloaders Val e).

(** The first epoch of [range(k)] whose validation accuracy is the largest
    of them. *)
Definition is_first_best (num_epochs k e : nat) (w0 : world) : Prop :=
  e < k /\
  (forall e', e' < k ->
     (epoch_val_acc num_epochs e' w0 <= epoch_val_acc num_epochs e w0)%Q) /\
  (forall e', e' < e ->
     (epoch_val_acc num_epochs e' w0 < epoch_val_acc num_epochs e w0)%Q).

(** Whether the VAL phase replaces the best snapshot. *)
Definition improves (ph : phase) (epoch_acc : Q) (v : loop_vars) : bool :=
  negb (is_train ph) && Qgtb epoch_acc (best_acc v).

(** The calls of an epoch after the head of its TRAIN phase. *)
Definition epoch_rest (e : nat) (train_line val_line : line)
    (train_preds val_preds : list nat) (copied : bool) : list event :=
  flat_map (fun _ => batch_events Train) (dataloaders Train e)
  ++ [Print train_line; Print (LPreds train_preds)]
  ++ [ModelTrain false]
  ++ flat_map (fun _ => batch_events Val) (dataloaders Val e)
  ++ [Print val_line; Print (LPreds val_preds)]
  ++ (if copied then [DeepCopy] else [])
  ++ [Print (LPreds val_preds)].

(** The state of the best snapshot when [k] epochs are done: still the
    entry snapshot with [best_acc = 0.0] while no epoch's validation
    accuracy exceeded 0, and otherwise the weights of the first epoch
    whose validation accuracy is the largest so far. *)
Definition best_tracks (n k : nat) (w0 : world) (v : loop_vars) : Prop :=
  (best_acc v = 0%Q /\ best_model_wts v = state_dict w0 /\
   forall e, e < k ->
     (epoch_val_acc n e w0 <= 0)%Q)
  \/
  (exists e,
     is_first_best n k e w0 /\
     (0 < epoch_val_acc n e w0)%Q /\
     best_model_wts v = live_after n (S e) w0 /\
     best_acc v = epoch_val_acc n e w0).

End Runs.

(** *** The calls of [visualize_model] *)

Section Shown.

Context {T : Torch}.

(** The calls that render one sample and print the running figure. *)
Definition sample_events (num_images shown : nat) (name : string)
    (probability : Q) : list event :=
  [Subplot (num_images / 6) 6 shown; AxisOff; SetTitle name; Imshow;
   Print (LAccuracy (Qfloor probability))].

(** The calls of the branch that stops the visualisation. *)
Definition return_events (was_training : bool) (v : vis_vars)
  : list event :=
  [ModelTrain was_training;
   Print (LGroundtruth (pred_groundtruth v));
   Print (LPredicted (pred_estimates v));
   Print (LConfidence (prob_estimates v));
   ComputeRocMetrics (pred_groundtruth v) (prob_estimates v)].

(** [evs] renders [shown] samples over [batches] forward passes, and
    neither prints the accumulated arrays nor calls
    [compute_roc_metrics]. *)
Definition renders (evs : list event) (shown batches : nat) : Prop :=
  count is_imshow evs = shown /\
  count is_forward evs = batches /\
  count is_compute_roc evs = 0 /\
  count is_array_print evs = 0.

(** Every class the network can predict has a name in [class_names]
    (the network has as many outputs as the train folder has classes). *)
Definition predictions_named (class_names : list string) : Prop :=
  forall mode w xs x, predict mode w xs x < List.length class_names.

(** The labels of the samples of a pass, in the order of the pass. *)
Definition labels_in_order (bs : list batch) : list nat :=
  labels_of (List.concat bs).

End Shown.

(** ** More observables of a run *)

Definition is_backward (e : event) : bool :=
  match e with Backward => true | _ => false end.

Definition is_optimizer_step (e : event) : bool :=
  match e with OptimizerStep => true | _ => false end.

Definition is_zero_grad (e : event) : bool :=
  match e with ZeroGrad => true | _ => false end.

(** A forward pass that tracks gradients. *)
Definition is_tracking_forward (e : event) : bool :=
  match e with Forward true => true | _ => false end.

(** The calls [visualize_model] makes while it goes through the samples:
    a forward pass under [torch.no_grad()], the four calls that render a
    sample, and the print of the running figure. *)
Definition is_display (e : event) : bool :=
  match e with
  | Forward false | Subplot _ _ _ | AxisOff | SetTitle _ | Imshow
  | Print (LAccuracy _) => true
  | _ => false
  end.

(** A call [visualize_model] makes while it goes through the samples, a
    subplot call being one for the grid of [num_images // 6] rows and 6
    columns and for an index from 1 on, up to [num_images] unless that is
    0. *)
Definition shows (num_images : nat) (e : event) : Prop :=
  is_display e = true /\
  match e with
  | Subplot rows cols index =>
      rows = num_images / 6 /\ cols = 6 /\ 1 <= index /\
      (num_images <> 0 -> index <= num_images)
  | _ => True
  end.

(** A value between 0 and 100. *)
Definition is_percentage (p : Q) : Prop := (0 <= p)%Q /\ (p <= 100)%Q.

Section MoreObservations.

Context {T : Torch}.

(** *** What a phase reports, told from the runtime alone

    The three definitions below do not go through the code of the batch
    loop: they give, from the operations of the runtime, the world the
    head of a phase and a batch leave, and the values the batches
    contribute to the loss and the accuracy of the phase. *)

(** The world at the first batch of a phase: the scheduler has stepped
    and the model is in train mode, or the model is in eval mode. *)
Definition phase_start (ph : phase) (w : world) : world :=
  match ph with
  | Train =>
      mkWorld (state_dict w) true (grad w)
              (snd (scheduler_step (sched w) (optim w)))
              (fst (scheduler_step (sched w) (optim w)))
              (trace w ++ [SchedulerStep; ModelTrain true])
  | Val =>
      mkWorld (state_dict w) false (grad w) (optim w) (sched w)
              (trace w ++ [ModelTrain false])
  end.

(** The world one batch leaves: the gradients are zeroed and the forward
    pass writes its buffers; in the TRAIN phase the loss is propagated
    back and the optimizer takes its step. *)
Definition after_batch (ph : phase) (b : batch) (w : world) : world :=
  let wts := forward_buffers (training w) (state_dict w) (inputs_of b) in
  match ph with
  | Train =>
      let g := backward wts (inputs_of b) (labels_of b)
                        (zero_grad (grad w)) in
      mkWorld (snd (optimizer_step (optim w) g wts)) (training w) g
              (fst (optimizer_step (optim w) g wts)) (sched w)
              (trace w ++ [ZeroGrad; Forward true; Backward; OptimizerStep])
  | Val =>
      mkWorld wts (training w) (zero_grad (grad w)) (optim w) (sched w)
              (trace w ++ [ZeroGrad; Forward false])
  end.

(** For each batch of a pass, in order: the loss of the criterion on the
    batch, the number of samples of the batch, and the number of
    positions where the predictions of the model agree with the labels,
    each for the model as the batches before have left it. *)
Fixpoint batch_values (ph : phase) (bs : list batch) (w : world)
  : list (Q * nat * nat) :=
  match bs with
  | [] => []
  | b :: bs' =>
      (criterion (training w) (state_dict w) (inputs_of b) (labels_of b),
       List.length b,
       count_eq (map (predict (training w) (state_dict w) (inputs_of b))
                     (inputs_of b))
                (labels_of b))
      :: batch_values ph bs' (after_batch ph b w)
  end.

(** The number of batches the first [n] epochs iterate over in the phase
    [ph]. *)
Definition batches_of (dataloaders : phase -> nat -> list batch)
    (ph : phase) (n : nat) : nat :=
  list_sum (map (fun e => List.length (dataloaders ph e)) (seq 0 n)).

(** [w'] holds the model, the gradients, the optimizer and the scheduler
    of [w]. *)
Definition same_model (w w' : world) : Prop :=
  state_dict w' = state_dict w /\ grad w' = grad w /\
  optim w' = optim w /\ sched w' = sched w.

(** [w'] holds the gradients, the optimizer and the scheduler of [w], and
    its state dict too when eval-mode forward passes write nothing. *)
Definition untouched (w w' : world) : Prop :=
  grad w' = grad w /\ optim w' = optim w /\ sched w' = sched w /\
  (eval_is_pure -> state_dict w' = state_dict w).

(** What holds of the variables of [visualize_model] between two samples:
    the three lists have one entry per sample shown, [correct] does not
    exceed [total], every score is a percentage, and the last score is
    [100 * correct / total]. *)
Definition vis_inv (v : vis_vars) : Prop :=
  List.length (prob_estimates v) = images_so_far v /\
  List.length (pred_estimates v) = images_so_far v /\
  List.length (pred_groundtruth v) = images_so_far v /\
  correct v <= total v /\
  Forall is_percentage (prob_estimates v) /\
  (prob_estimates v = [] \/
   last (prob_estimates v) 0%Q
   = (Qnat (100 * correct v) / Qnat (total v))%Q).

(** From [v] to [v'] some samples of one batch were shown, and each added
    the size of the batch to [total] and the number of correct predictions
    of the batch to [correct]. *)
Definition advanced (size corrects : nat) (v v' : vis_vars) : Prop :=
  images_so_far v <= images_so_far v' /\
  total v' = total v + (images_so_far v' - images_so_far v) * size /\
  correct v' = correct v + (images_so_far v' - images_so_far v) * corrects.


End MoreObservations.

(** ** A small concrete runtime and dataset

    Images and weights are numbers.  In eval mode the model predicts the
    parity of image plus weights; one optimizer step adds the gradient to
    the weights, and a train-mode forward pass writes two to the buffers. *)

Module Toy.

Definition torch : Torch := {|
  image := nat;
  weights := nat;
  gradient := nat;
  optimizer := nat;
  scheduler := nat;
  predict := fun training w xs x =>
    if training then (x + List.length xs) mod 2 else (x + w) mod 2;
  forward_buffers := fun training w xs => if training then w + 2 else w;
  criterion := fun training w xs labels => (1 # Pos.of_nat (S w))%Q;
  backward := fun w xs labels g => S g;
  zero_grad := fun g => 0;
  optimizer_step := fun o g w => (S o, w + g);
  scheduler_step := fun s o => (S s, o)
|}.

(** One train batch of two images and a validation set of three, in two
    batches; every pass yields the same batches. *)
Definition val_set : list (nat * nat) := [(0, 0); (1, 1); (2, 0)].

Definition dataloaders (ph : phase) (epoch : nat) : list (list (nat * nat)) :=
  match ph with
  | Train => [[(5, 1); (6, 0)]]
  | Val => [[(0, 0); (1, 1)]; [(2, 0)]]
  end.

Definition dataset_sizes (ph : phase) : nat :=
  match ph with Train => 2 | Val => 3 end.

(** A model with weights [0], in train mode, and nothing called yet. *)
Definition w0 : @world torch := @mkWorld torch 0 true 0 0 0 [].

(** A validation pass of six batches of four images, two of each batch
    predicted right by even weights, and the two class names. *)
Definition batch4 : list (nat * nat) := [(0, 0); (2, 0); (1, 0); (3, 0)].

Definition val_batches : list (list (nat * nat)) := repeat batch4 6.

Definition class_names : list string := ["normal"%string; "tumor"%string].

(** A dataset whose train folder has two class folders and whose val
    folder has one: both load. *)
Definition train_folder : @image_folder torch :=
  @mkFolder torch ["normal"%string; "tumor"%string] 2
            (fun _ => [[(5, 1); (6, 0)]]).

Definition val_folder : @image_folder torch :=
  @mkFolder torch ["normal"%string] 24 (fun _ => val_batches).

Definition ImageFolder (root : string) : exn + @image_folder torch :=
  if String.eqb root "data/pituitary_data/train" then inr train_folder
  else if String.eqb root "data/pituitary_data/val" then inr val_folder
  else inl (LoadFailure "no such directory").

Definition model_ft : @model torch := @mkModel torch 0 0 0 0.
Definition model_conv : @model torch := @mkModel torch 1 0 0 0.

End Toy.

(** * Properties *)

Section TrainModelFacts.

Context {T : Torch}.
Variable dataloaders : phase -> nat -> list batch.
Variable dataset_sizes : phase -> nat.

(** One batch: it always returns, and this is what it leaves. *)
Lemma batch_step_spec ph b w :
  exists loss w',
    batch_step ph b w =
      Ok (loss, List.length (inputs_of b),
          count_eq (map (predict (training w) (state_dict w) (inputs_of b))
                        (inputs_of b)) (labels_of b),
          map (predict (training w) (state_dict w) (inputs_of b))
              (inputs_of b)) w' /\
    trace w' = trace w ++ batch_events ph /\
    training w' = training w /\
    sched w' = sched w /\
    (ph = Val ->
     state_dict w' = forward_buffers (training w) (state_dict w) (inputs_of b)
     /\ optim w' = optim w).
Proof.
  destruct ph; cbv [batch_step bind call_zero_grad call_model call_backward
                     call_optimizer_step ret is_train];
    cbn [state_dict training grad optim sched trace argmax loss_item];
    eexists; eexists; (split; [reflexivity|]);
    cbn [state_dict training grad optim sched trace batch_events];
    rewrite <- ?app_assoc; repeat split; try reflexivity; discriminate.
Qed.

Lemma batch_step_val_pure b w :
  eval_is_pure -> training w = false ->
  exists loss preds w',
    batch_step Val b w =
      Ok (loss, List.length (inputs_of b), corrects_on (state_dict w) b, preds)
         w' /\
    state_dict w' = state_dict w /\ optim w' = optim w /\
    training w' = false.
Proof.
  intros Hpure Ht.
  destruct (batch_step_spec Val b w) as (loss & w' & E & _ & Htr & _ & Hv).
  destruct (Hv eq_refl) as [Hs Ho].
  exists loss, (map (predict (training w) (state_dict w) (inputs_of b))
                    (inputs_of b)), w'.
  rewrite Ht in *. unfold corrects_on.
  repeat split; auto. now rewrite Hs, Hpure.
Qed.

Lemma for_batches_spec ph bs : forall rl rc p w,
  exists rl' rc' p' w',
    for_batches ph bs (rl, rc, p) w = Ok (rl', rc', p') w' /\
    trace w' = trace w ++ flat_map (fun _ => batch_events ph) bs /\
    training w' = training w /\
    sched w' = sched w /\
    (rl' == rl + weighted_loss (phase_stats ph bs w))%Q /\
    counter_val rc' = counter_val rc + total_corrects (phase_stats ph bs w) /\
    (bs <> [] -> rc' = Tensor (counter_val rc')) /\
    (bs = [] -> rc' = rc).
Proof.
  induction bs as [|b bs IH]; intros rl rc p w.
  - exists rl, rc, p, w. cbn. rewrite app_nil_r, Nat.add_0_r.
    repeat split; auto; try (now intros []). ring.
  - destruct (batch_step_spec ph b w) as (loss & w1 & E & Htr & Hmode & Hs & _).
    cbn [for_batches phase_stats]. unfold run_batch, bind. rewrite E.
    cbn [ret].
    match goal with
    | |- context [for_batches ph bs (?a, ?c, ?q) w1] =>
        destruct (IH a c q w1)
          as (rl' & rc' & p' & w' & E' & Htr' & Hmode' & Hs' & Hl & Hc & Hne & _)
    end.
    exists rl', rc', p', w'. split; [exact E'|].
    cbn [flat_map weighted_loss total_corrects].
    rewrite Htr', Htr, Hmode', Hmode, Hs', Hs, <- app_assoc.
    repeat split; auto.
    + rewrite Hl. ring.
    + rewrite Hc. destruct rc; cbn; lia.
    + intros _. destruct bs.
      * cbn in E'. injection E' as <- <- <- <-. now destruct rc.
      * apply Hne. discriminate.
    + discriminate.
Qed.


Lemma for_batches_val_pure (Hpure : eval_is_pure) bs : forall rl rc p w,
  training w = false ->
  forall rl' rc' p' w',
    for_batches Val bs (rl, rc, p) w = Ok (rl', rc', p') w' ->
    state_dict w' = state_dict w /\ optim w' = optim w /\
    counter_val rc' = counter_val rc + corrects_over (state_dict w) bs.
Proof.
  induction bs as [|b bs IH]; intros rl rc p w Ht rl' rc' p' w' E.
  - cbn in E. injection E as <- <- <- <-. cbn. auto.
  - destruct (batch_step_val_pure b w Hpure Ht)
      as (loss & preds & w1 & E1 & Hs & Ho & Ht1).
    cbn [for_batches] in E. unfold run_batch, bind in E. rewrite E1 in E.
    cbn [ret] in E. apply IH in E; [|exact Ht1].
    destruct E as (Hs' & Ho' & Hc). rewrite Hs', Ho', Hc, Hs, Ho.
    cbn [corrects_over]. repeat split; auto. destruct rc; cbn; lia.
Qed.

Lemma enter_phase_spec ph w :
  enter_phase ph w = Ok tt (exec (enter_phase ph) w) /\
  trace (exec (enter_phase ph) w) = trace w ++ enter_events ph /\
  training (exec (enter_phase ph) w) = is_train ph /\
  (ph = Val -> state_dict (exec (enter_phase ph) w) = state_dict w /\
               optim (exec (enter_phase ph) w) = optim w /\
               sched (exec (enter_phase ph) w) = sched w) /\
  (ph = Train ->
     sched (exec (enter_phase ph) w) = fst (scheduler_step (sched w) (optim w))).
Proof.
  destruct ph; (split; [reflexivity|]); cbn; rewrite <- ?app_assoc;
    repeat split; try reflexivity; try discriminate.
Qed.

(** One phase, on a loader that is not empty. *)
Lemma run_phase_spec ph e v w :
  dataset_sizes ph <> 0 -> dataloaders ph e <> [] ->
  let stats := phase_stats ph (dataloaders ph e) (exec (enter_phase ph) w) in
  let epoch_acc :=
    (Qnat (total_corrects stats) / Qnat (dataset_sizes ph))%Q in
  exists epoch_loss preds v' w',
    run_phase dataloaders dataset_sizes ph e v w = Ok v' w' /\
    (epoch_loss == weighted_loss stats / Qnat (dataset_sizes ph))%Q /\
    trace w' =
      trace w ++ enter_events ph
        ++ flat_map (fun _ => batch_events ph) (dataloaders ph e)
        ++ [Print (LPhase ph epoch_loss epoch_acc); Print (LPreds preds)]
        ++ (if improves ph epoch_acc v then [DeepCopy] else []) /\
    train_losses v' =
      (if is_train ph then train_losses v ++ [epoch_loss]
       else train_losses v) /\
    val_losses v' =
      (if is_train ph then val_losses v else val_losses v ++ [epoch_loss]) /\
    best_model_wts v' =
      (if improves ph epoch_acc v then state_dict w' else best_model_wts v) /\
    best_acc v' = (if improves ph epoch_acc v then epoch_acc else best_acc v) /\
    training w' = is_train ph /\
    sched w' = sched (exec (enter_phase ph) w) /\
    state_dict w' =
      state_dict (exec (for_batches ph (dataloaders ph e)
                                    (0%Q, PyInt 0, last_preds v))
                       (exec (enter_phase ph) w)) /\
    optim w' =
      optim (exec (for_batches ph (dataloaders ph e)
                               (0%Q, PyInt 0, last_preds v))
                  (exec (enter_phase ph) w)) /\
    last_preds v' = preds.
Proof.
  intros Hsize Hbs stats epoch_acc.
  destruct (enter_phase_spec ph w) as (E0 & Htr0 & Hm0 & _).
  set (w0 := exec (enter_phase ph) w) in *.
  destruct (for_batches_spec ph (dataloaders ph e) 0%Q (PyInt 0) (last_preds v) w0)
    as (rl & rc & p & w1 & E1 & Htr1 & Hm1 & Hs1 & Hl & Hc & Hne & _).
  specialize (Hne Hbs). cbn [counter_val Nat.add] in Hc. fold stats in Hl, Hc.
  unfold run_phase, bind. rewrite E0, E1.
  assert (Ex : exec (for_batches ph (dataloaders ph e)
                                 (0%Q, PyInt 0, last_preds v)) w0 = w1)
    by (unfold exec; now rewrite E1).
  rewrite Ex.
  unfold float_div. destruct (Nat.eqb_spec (dataset_sizes ph) 0) as [|_];
    [contradiction|].
  cbn [ret]. rewrite Hne. cbn [double_div ret]. rewrite Hc. cbn [emit].
  fold epoch_acc. fold (improves ph epoch_acc v).
  cbv beta.
  exists (rl / Qnat (dataset_sizes ph))%Q, p.
  destruct (improves ph epoch_acc v) eqn:Himp;
    (eexists; eexists; split; [reflexivity|]);
    cbn [train_losses val_losses best_model_wts best_acc last_preds
         state_dict training sched optim trace log];
    rewrite Htr1, Htr0, Hm1, Hm0, Hs1, <- !app_assoc;
    (split; [rewrite Hl; now rewrite Qplus_0_l|]);
    repeat split; auto; destruct ph; reflexivity.
Qed.


Lemma phase_stats_val_pure (Hpure : eval_is_pure) bs w :
  training w = false ->
  total_corrects (phase_stats Val bs w) = corrects_over (state_dict w) bs.
Proof.
  intros Ht.
  destruct (for_batches_spec Val bs 0%Q (PyInt 0) [] w)
    as (rl & rc & p & w1 & E & _ & _ & _ & _ & Hc & _).
  destruct (for_batches_val_pure Hpure bs _ _ _ _ Ht _ _ _ _ E) as (_ & _ & Hc').
  cbn [counter_val] in *. lia.
Qed.

(** The VAL phase when eval-mode forward passes are pure: the live model
    is left as it was, and the best snapshot follows the accuracy measured
    for it. *)
Lemma run_phase_val_pure (Hpure : eval_is_pure) e v w :
  dataset_sizes Val <> 0 -> dataloaders Val e <> [] ->
  let acc := measured_acc (dataset_sizes Val) (state_dict w)
                          (dataloaders Val e) in
  exists v' w',
    run_phase dataloaders dataset_sizes Val e v w = Ok v' w' /\
    state_dict w' = state_dict w /\ optim w' = optim w /\
    sched w' = sched w /\
    best_model_wts v' =
      (if Qgtb acc (best_acc v) then state_dict w else best_model_wts v) /\
    best_acc v' = (if Qgtb acc (best_acc v) then acc else best_acc v).
Proof.
  intros Hsize Hbs acc.
  destruct (run_phase_spec Val e v w Hsize Hbs)
    as (l & p & v' & w' & E & _ & _ & _ & _ & Hb & Ha & _ & Hs & Hd & Ho & _).
  destruct (enter_phase_spec Val w) as (_ & _ & Ht & Hf & _).
  destruct (Hf eq_refl) as (Hd0 & Ho0 & Hs0).
  set (w0 := exec (enter_phase Val) w) in *.
  destruct (for_batches_spec Val (dataloaders Val e) 0%Q (PyInt 0)
                             (last_preds v) w0)
    as (rl & rc & q & w1 & E1 & _).
  destruct (for_batches_val_pure Hpure _ _ _ _ _ Ht _ _ _ _ E1) as (Hd1 & Ho1 & _).
  unfold exec in Hd, Ho. rewrite E1 in Hd, Ho. cbn [final] in Hd, Ho.
  rewrite (phase_stats_val_pure Hpure _ _ Ht), Hd0 in Hb, Ha.
  fold (measured_acc (dataset_sizes Val) (state_dict w) (dataloaders Val e))
    in Hb, Ha.
  fold acc in Hb, Ha. unfold improves in Hb, Ha. cbn in Hb, Ha.
  exists v', w'. repeat split; auto; try congruence.
  rewrite Hb. destruct (Qgtb acc (best_acc v)); congruence.
Qed.


Lemma count_app p a b : count p (a ++ b) = count p a + count p b.
Proof. unfold count. now rewrite filter_app, length_app. Qed.

Lemma count_none p l :
  (forall e, In e l -> p e = false) -> count p l = 0.
Proof.
  unfold count. induction l as [|x l IH]; intros H; [reflexivity|].
  cbn. rewrite (H x (or_introl eq_refl)). apply IH.
  intros y Hy. apply H. now right.
Qed.

Lemma count_batches p ph (bs : list batch) :
  (forall e, In e (batch_events ph) -> p e = false) ->
  count p (flat_map (fun _ => batch_events ph) bs) = 0.
Proof.
  intros H. induction bs as [|b bs IH]; [reflexivity|].
  cbn [flat_map]. now rewrite count_app, IH, Nat.add_0_r, count_none.
Qed.

Lemma no_scheduler_step_in_batches ph (bs : list batch) :
  count is_scheduler_step (flat_map (fun _ => batch_events ph) bs) = 0.
Proof.
  apply count_batches. destruct ph; cbn; intros e He;
    repeat (destruct He as [<-|He]; [reflexivity|]); destruct He.
Qed.

Lemma run_epoch_spec n e v w :
  loaders_nonempty dataloaders dataset_sizes ->
  exists v' w' tl vl tp vp c,
    run_epoch dataloaders dataset_sizes n e v w = Ok v' w' /\
    trace w' =
      trace w ++ [Print (LEpoch e (n - 1)); Print LDashes;
                  SchedulerStep; ModelTrain true]
              ++ epoch_rest dataloaders e tl vl tp vp c /\
    List.length (train_losses v') = S (List.length (train_losses v)) /\
    List.length (val_losses v') = S (List.length (val_losses v)) /\
    sched w' = fst (scheduler_step (sched w) (optim w)).
Proof.
  intros [Hsize Hbs].
  unfold run_epoch, bind. cbn [emit].
  set (wa := log (Print LDashes) (log (Print (LEpoch e (n - 1))) w)).
  destruct (run_phase_spec Train e v wa (Hsize Train) (Hbs Train e))
    as (l1 & p1 & v1 & w1 & E1 & _ & Htr1 & Htl1 & Hvl1 & _ & _ & _ & Hs1 & _).
  rewrite E1.
  destruct (run_phase_spec Val e v1 w1 (Hsize Val) (Hbs Val e))
    as (l2 & p2 & v2 & w2 & E2 & _ & Htr2 & Htl2 & Hvl2 & _ & _ & _ & Hs2 & _
        & _ & Hp2).
  rewrite E2. cbn [ret].
  destruct (enter_phase_spec Train wa) as (_ & _ & _ & _ & HsT).
  destruct (enter_phase_spec Val w1) as (_ & _ & _ & HfV & _).
  destruct (HfV eq_refl) as (_ & _ & HsV).
  do 7 eexists. split; [reflexivity|].
  cbn [trace sched log]. rewrite Htr2, Htr1.
  rewrite Hp2.
  split.
  - unfold epoch_rest. cbn [enter_events is_train improves negb andb app].
    subst wa. cbn [trace log].
    repeat (rewrite <- app_assoc; cbn [app]).
    reflexivity.
  - rewrite Htl2, Hvl2, Htl1, Hvl1. cbn [is_train].
    rewrite !length_app. cbn [List.length].
    repeat split; try lia.
    rewrite Hs2, HsV, Hs1, (HsT eq_refl). reflexivity.
Qed.


Lemma Qgtb_true a b : Qgtb a b = true <-> (b < a)%Q.
Proof.
  unfold Qgtb. rewrite negb_true_iff, <- not_true_iff_false, Qle_bool_iff.
  split; [apply Qnot_le_lt | apply Qlt_not_le].
Qed.

Lemma Qgtb_false a b : Qgtb a b = false <-> (a <= b)%Q.
Proof.
  unfold Qgtb. rewrite negb_false_iff. apply Qle_bool_iff.
Qed.

(** One epoch when eval-mode forward passes are pure: the epoch's
    validation accuracy is the one measured for the weights the epoch ends
    with, and the best snapshot is replaced by them exactly when it
    exceeds the best accuracy so far. *)
Lemma run_epoch_pure (Hpure : eval_is_pure) n e v w :
  loaders_nonempty dataloaders dataset_sizes ->
  exists v' w',
    run_epoch dataloaders dataset_sizes n e v w = Ok v' w' /\
    let acc := measured_acc (dataset_sizes Val) (state_dict w')
                            (dataloaders Val e) in
    best_model_wts v' =
      (if Qgtb acc (best_acc v) then state_dict w' else best_model_wts v) /\
    best_acc v' = (if Qgtb acc (best_acc v) then acc else best_acc v).
Proof.
  intros [Hsize Hbs].
  unfold run_epoch, bind. cbn [emit].
  set (wa := log (Print LDashes) (log (Print (LEpoch e (n - 1))) w)).
  destruct (run_phase_spec Train e v wa (Hsize Train) (Hbs Train e))
    as (l1 & p1 & v1 & w1 & E1 & _ & _ & _ & _ & Hb1 & Ha1 & _).
  rewrite E1. cbn [improves is_train negb andb] in Hb1, Ha1.
  destruct (run_phase_val_pure Hpure e v1 w1 (Hsize Val) (Hbs Val e))
    as (v2 & w2 & E2 & Hd2 & _ & _ & Hb2 & Ha2).
  rewrite E2. cbn [ret].
  eexists; eexists; split; [reflexivity|].
  cbn [state_dict log]. rewrite Hd2, Hb2, Ha2, Hb1, Ha1. split; reflexivity.
Qed.

Lemma for_epochs_app n l1 : forall l2 v w,
  for_epochs dataloaders dataset_sizes n (l1 ++ l2) v w =
  bind (for_epochs dataloaders dataset_sizes n l1 v)
       (for_epochs dataloaders dataset_sizes n l2) w.
Proof.
  induction l1 as [|e l1 IH]; intros l2 v w; [reflexivity|].
  cbn [app for_epochs]. unfold bind at 1 2 3.
  destruct (run_epoch dataloaders dataset_sizes n e v w) as [v' w'|x w'];
    [|reflexivity].
  rewrite IH. reflexivity.
Qed.

Lemma train_loop_S n k w0 :
  train_loop dataloaders dataset_sizes n (seq 0 (S k)) w0 =
  bind (train_loop dataloaders dataset_sizes n (seq 0 k))
       (run_epoch dataloaders dataset_sizes n k) w0.
Proof.
  unfold train_loop, bind. cbn [deepcopy_state_dict].
  rewrite seq_S, for_epochs_app. cbn [Nat.add for_epochs]. unfold bind.
  destruct (for_epochs dataloaders dataset_sizes n (seq 0 k) _ _)
    as [v w|x w]; [|reflexivity].
  destruct (run_epoch dataloaders dataset_sizes n k v w); reflexivity.
Qed.

Lemma train_loop_invariant (Hpure : eval_is_pure) n w0 :
  loaders_nonempty dataloaders dataset_sizes ->
  forall k,
  exists v w,
    train_loop dataloaders dataset_sizes n (seq 0 k) w0 = Ok v w /\
    best_tracks dataloaders dataset_sizes n k w0 v.
Proof.
  intros Hne. induction k as [|k (v & w & E & Hinv)].
  - eexists; eexists; split; [reflexivity|].
    left. cbn. repeat split; auto. intros e He. lia.
  - destruct (run_epoch_pure Hpure n k v w Hne) as (v' & w' & E' & Hb & Ha).
    assert (ES : train_loop dataloaders dataset_sizes n (seq 0 (S k)) w0
                 = Ok v' w')
      by (rewrite train_loop_S; unfold bind; now rewrite E).
    exists v', w'. split; [exact ES|].
    assert (Hlive : live_after dataloaders dataset_sizes n (S k) w0
                    = state_dict w')
      by (unfold live_after, exec; now rewrite ES).
    assert (Hacc : epoch_val_acc dataloaders dataset_sizes n k w0
                   = measured_acc (dataset_sizes Val) (state_dict w')
                                  (dataloaders Val k))
      by (unfold epoch_val_acc; now rewrite Hlive).
    rewrite <- Hacc in Hb, Ha. cbv zeta in Hb, Ha.
    set (acc := epoch_val_acc dataloaders dataset_sizes n) in *.
    destruct (Qgtb (acc k w0) (best_acc v)) eqn:G.
    + apply Qgtb_true in G. right. exists k.
      assert (Hold : forall e, e < k -> (acc e w0 < acc k w0)%Q).
      { intros e He. destruct Hinv as [(H0 & _ & Hle)|(e0 & (_ & Hle & _) & _ & _ & H0)].
        - rewrite H0 in G. eapply Qle_lt_trans; [apply Hle, He|exact G].
        - rewrite H0 in G. eapply Qle_lt_trans; [apply Hle, He|exact G]. }
      repeat split; auto.
      * intros e He. destruct (Nat.eq_dec e k) as [->|Hn];
          [apply Qle_refl | apply Qlt_le_weak, Hold; lia].
      * destruct Hinv as [(H0 & _)|(e0 & _ & Hpos & _ & H0)];
          rewrite H0 in G; [exact G | eapply Qlt_trans; eauto].
      * congruence.
    + apply Qgtb_false in G.
      destruct Hinv as [(H0 & Hw & Hle)|(e0 & (He0 & Hle & Hlt) & Hpos & Hw & H0)].
      * left. rewrite H0 in G. repeat split; try congruence.
        intros e He. destruct (Nat.eq_dec e k) as [->|Hn];
          [exact G | apply Hle; lia].
      * right. exists e0. rewrite H0 in G.
        repeat split; auto; try congruence.
        intros e He. destruct (Nat.eq_dec e k) as [->|Hn];
          [exact G | apply Hle; lia].
Qed.

(** Past the loop: the two prints, the plot, and the load of the best
    snapshot. *)
Lemma train_model_after_loop n w0 v w :
  train_loop dataloaders dataset_sizes n (seq 0 n) w0 = Ok v w ->
  train_model dataloaders dataset_sizes n w0 =
    Ok tt (mkWorld (best_model_wts v) (training w) (grad w) (optim w)
                   (sched w)
                   (trace w ++ [Print LTime; Print (LBestAcc (best_acc v));
                                PlotLearningCurve (train_losses v)
                                                  (val_losses v) n;
                                LoadStateDict])).
Proof.
  intros E. unfold train_model, bind. rewrite E.
  cbv [emit plot_learning_curve load_state_dict log bind].
  cbn [state_dict training grad optim sched trace].
  now rewrite <- !app_assoc.
Qed.


Lemma epoch_rest_no_scheduler_step e tl vl tp vp c :
  count is_scheduler_step (epoch_rest dataloaders e tl vl tp vp c) = 0.
Proof.
  unfold epoch_rest. rewrite !count_app, !no_scheduler_step_in_batches.
  destruct c; reflexivity.
Qed.

(** The loop as a whole: it returns, each series has one loss per epoch
    done, and each epoch stepped the scheduler once. *)
Lemma train_loop_shape n w0 :
  loaders_nonempty dataloaders dataset_sizes ->
  forall k,
  exists v w evs,
    train_loop dataloaders dataset_sizes n (seq 0 k) w0 = Ok v w /\
    List.length (train_losses v) = k /\
    List.length (val_losses v) = k /\
    trace w = trace w0 ++ DeepCopy :: evs /\
    count is_scheduler_step evs = k.
Proof.
  intros Hne. induction k as [|k (v & w & evs & E & Ht & Hv & Htr & Hc)].
  - exists (mkVars [] [] (state_dict w0) 0%Q []), (log DeepCopy w0), [].
    repeat split; reflexivity.
  - destruct (run_epoch_spec n k v w Hne)
      as (v' & w' & tl & vl & tp & vp & c & E' & Htr' & Ht' & Hv' & _).
    exists v', w',
      (evs ++ [Print (LEpoch k (n - 1)); Print LDashes; SchedulerStep;
               ModelTrain true]
           ++ epoch_rest dataloaders k tl vl tp vp c).
    split.
    { rewrite train_loop_S. unfold bind. rewrite E. exact E'. }
    rewrite Ht', Hv', Ht, Hv, Htr', Htr.
    repeat split.
    + rewrite <- app_assoc. reflexivity.
    + rewrite !count_app, Hc, epoch_rest_no_scheduler_step. cbn. lia.
Qed.

(** *** Measured and true validation accuracy *)

Lemma count_eq_pointwise (Hpt : eval_is_pointwise) w ctx (b : batch) :
  count_eq (map (predict false w ctx) (inputs_of b)) (labels_of b) =
  List.length (filter (classified_right w) b).
Proof.
  unfold inputs_of, labels_of.
  induction b as [|[x l] b IH]; [reflexivity|].
  cbn [map fst snd count_eq filter].
  rewrite IH, Hpt. unfold classified_right at 2, classify. cbn [fst snd].
  destruct (Nat.eqb (predict false w [x] x) l); reflexivity.
Qed.

Lemma corrects_over_concat (Hpt : eval_is_pointwise) w bs :
  corrects_over w bs =
  List.length (filter (classified_right w) (List.concat bs)).
Proof.
  induction bs as [|b bs IH]; [reflexivity|].
  cbn [corrects_over List.concat]. rewrite filter_app, length_app, <- IH.
  unfold corrects_on. now rewrite count_eq_pointwise.
Qed.

Lemma filter_length_permutation {A} (f : A -> bool) l l' :
  Permutation l l' ->
  List.length (filter f l) = List.length (filter f l').
Proof.
  induction 1 as [|x l l' _ IH|x y l|l l' l'' _ IH1 _ IH2]; cbn.
  - reflexivity.
  - destruct (f x); cbn; congruence.
  - destruct (f x), (f y); reflexivity.
  - congruence.
Qed.

(** What the VAL phase measures for given weights is their accuracy on the
    validation set, whatever the order and the batches of the pass. *)
Lemma measured_is_val_accuracy val_set w e :
  eval_is_pointwise ->
  val_loader_covers dataloaders dataset_sizes val_set ->
  measured_acc (dataset_sizes Val) w (dataloaders Val e) =
  val_accuracy val_set w.
Proof.
  intros Hpt [Hsize Hperm]. unfold measured_acc, val_accuracy.
  now rewrite Hsize, (corrects_over_concat Hpt),
    (filter_length_permutation _ _ _ (Hperm e)).
Qed.

Lemma Qnat_div_nonneg a b : (0 <= Qnat a / Qnat b)%Q.
Proof.
  assert (H : forall n, (0 <= Qnat n)%Q).
  { intros n. unfold Qnat. change 0%Q with (inject_Z 0).
    rewrite <- Zle_Qle. lia. }
  apply Qmult_le_0_compat; [apply H|]. apply Qinv_le_0_compat, H.
Qed.


(** ** The claims about [train_model] *)

(** C10.  If no epoch's validation accuracy exceeds 0.0, [train_model]
    returns, and the model it returns holds the state dict it was entered
    with: the best snapshot is taken at entry with [best_acc = 0.0] and is
    replaced only on a strict improvement. *)
Theorem no_improvement_returns_entry_snapshot n w0 :
  eval_is_pure ->
  loaders_nonempty dataloaders dataset_sizes ->
  (forall e, e < n ->
     ~ (0 < epoch_val_acc dataloaders dataset_sizes n e w0)%Q) ->
  exists w',
    train_model dataloaders dataset_sizes n w0 = Ok tt w' /\
    state_dict w' = state_dict w0.
Proof.
  intros Hpure Hne Hzero.
  destruct (train_loop_invariant Hpure n w0 Hne n) as (v & w & E & Hinv).
  eexists. split; [apply (train_model_after_loop _ _ _ _ E)|].
  cbn [state_dict].
  destruct Hinv as [(_ & Hw & _)|(e & (He & _) & Hpos & _)]; [exact Hw|].
  destruct (Hzero e He Hpos).
Qed.


(** C1.  [train_model] returns, the live parameters of the returned model
    are the best snapshot the loop ended with, and the validation accuracy
    of the returned model is at least the validation accuracy of the
    weights every single epoch ended with. *)
Theorem train_model_returns_best val_set n w0 :
  eval_is_pure ->
  eval_is_pointwise ->
  loaders_nonempty dataloaders dataset_sizes ->
  val_loader_covers dataloaders dataset_sizes val_set ->
  exists v w w',
    train_loop dataloaders dataset_sizes n (seq 0 n) w0 = Ok v w /\
    train_model dataloaders dataset_sizes n w0 = Ok tt w' /\
    state_dict w' = best_model_wts v /\
    forall e, e < n ->
      (val_accuracy val_set (live_after dataloaders dataset_sizes n (S e) w0)
       <= val_accuracy val_set (state_dict w'))%Q.
Proof.
  intros Hpure Hpt Hne Hcov.
  destruct (train_loop_invariant Hpure n w0 Hne n) as (v & w & E & Hinv).
  exists v, w. eexists.
  split; [exact E|]. split; [apply (train_model_after_loop _ _ _ _ E)|].
  cbn [state_dict]. split; [reflexivity|].
  assert (Hacc : forall e,
            epoch_val_acc dataloaders dataset_sizes n e w0 =
            val_accuracy val_set
              (live_after dataloaders dataset_sizes n (S e) w0))
    by (intros e; apply measured_is_val_accuracy; assumption).
  intros e He. rewrite <- Hacc.
  destruct Hinv as [(_ & Hw & Hle)|(e0 & (_ & Hle & _) & _ & Hw & _)].
  - eapply Qle_trans; [apply Hle, He|]. apply Qnat_div_nonneg.
  - rewrite Hw, <- Hacc. apply Hle, He.
Qed.


(** C2, as amended.  Epoch [k] replaces the best snapshot by the weights it
    ends with exactly when its validation accuracy is strictly above the
    best accuracy so far, which starts at 0.0.  Hence, when [k] epochs are
    done, the best snapshot is the one of the first epoch with the largest
    validation accuracy so far as soon as one epoch's accuracy was above
    0.0, and it is still the snapshot taken at entry until then. *)
Theorem best_snapshot_tracks_first_best n w0 k :
  eval_is_pure ->
  loaders_nonempty dataloaders dataset_sizes ->
  exists v w v' w',
    train_loop dataloaders dataset_sizes n (seq 0 k) w0 = Ok v w /\
    best_tracks dataloaders dataset_sizes n k w0 v /\
    run_epoch dataloaders dataset_sizes n k v w = Ok v' w' /\
    let acc := epoch_val_acc dataloaders dataset_sizes n k w0 in
    ((best_acc v < acc)%Q ->
       best_model_wts v' = state_dict w' /\ best_acc v' = acc) /\
    (~ (best_acc v < acc)%Q ->
       best_model_wts v' = best_model_wts v /\ best_acc v' = best_acc v).
Proof.
  intros Hpure Hne.
  destruct (train_loop_invariant Hpure n w0 Hne k) as (v & w & E & Hinv).
  destruct (run_epoch_pure Hpure n k v w Hne) as (v' & w' & E' & Hb & Ha).
  exists v, w, v', w'. repeat (split; [assumption|]).
  assert (Hacc : epoch_val_acc dataloaders dataset_sizes n k w0
                 = measured_acc (dataset_sizes Val) (state_dict w')
                                (dataloaders Val k)).
  { unfold epoch_val_acc, live_after, exec.
    rewrite train_loop_S. unfold bind. now rewrite E, E'. }
  cbv zeta in *. rewrite <- Hacc in Hb, Ha.
  split; intros G.
  - apply Qgtb_true in G. rewrite G in Hb, Ha. auto.
  - assert (G' : Qgtb (epoch_val_acc dataloaders dataset_sizes n k w0)
                      (best_acc v) = false).
    { apply not_true_is_false. intros G'. apply G, Qgtb_true, G'. }
    rewrite G' in Hb, Ha. auto.
Qed.


(** C5.  A VAL phase of [train_model] returns with the state dict and the
    optimizer as it found them.  Its calls are [model.eval()], then for
    each batch [optimizer.zero_grad()] and one forward pass with gradient
    tracking disabled, then the two prints and, on an improvement, the
    copy of the state dict: no forward pass tracks gradients, and neither
    [loss.backward()] nor [optimizer.step()] is called. *)
Theorem val_phase_changes_no_parameter e v w :
  eval_is_pure ->
  loaders_nonempty dataloaders dataset_sizes ->
  exists v' w' report evs,
    run_phase dataloaders dataset_sizes Val e v w = Ok v' w' /\
    state_dict w' = state_dict w /\
    optim w' = optim w /\
    trace w' = trace w ++ evs /\
    evs = ModelTrain false
          :: flat_map (fun _ => [ZeroGrad; Forward false]) (dataloaders Val e)
          ++ report /\
    Forall (fun ev => ev = DeepCopy \/ exists l, ev = Print l) report /\
    count is_gradient_call evs = 0.
Proof.
  intros Hpure [Hsize Hbs].
  destruct (run_phase_val_pure Hpure e v w (Hsize Val) (Hbs Val e))
    as (v' & w' & E & Hd & Ho & _).
  destruct (run_phase_spec Val e v w (Hsize Val) (Hbs Val e))
    as (l & p & v2 & w2 & E2 & _ & Htr & _).
  rewrite E in E2. injection E2 as <- <-.
  exists v', w'. eexists. eexists.
  repeat (split; [eassumption|]).
  split; [reflexivity|]. split.
  - apply Forall_cons; [right; eauto|]. apply Forall_cons; [right; eauto|].
    destruct (improves Val _ v); repeat constructor.
  - change (ModelTrain false :: ?x) with ([ModelTrain false] ++ x).
    rewrite !count_app.
    rewrite (count_batches is_gradient_call Val).
    + now destruct (improves Val _ v).
    + cbn. intros ev [<-|[<-|[]]]; reflexivity.
Qed.

(** C6.  Every epoch of [train_model] steps the learning-rate scheduler
    once: right after the two prints that open the epoch, followed by
    [model.train()], and before the first batch of the TRAIN phase; the
    rest of the epoch, the batches of both phases included, holds no
    scheduler step.  Over a whole run the scheduler is stepped once per
    epoch. *)
Theorem scheduler_steps_once_per_epoch n :
  loaders_nonempty dataloaders dataset_sizes ->
  (forall e v w,
     exists v' w' tl vl tp vp c,
       run_epoch dataloaders dataset_sizes n e v w = Ok v' w' /\
       trace w' =
         trace w ++ [Print (LEpoch e (n - 1)); Print LDashes;
                     SchedulerStep; ModelTrain true]
                 ++ epoch_rest dataloaders e tl vl tp vp c /\
       count is_scheduler_step (epoch_rest dataloaders e tl vl tp vp c) = 0 /\
       sched w' = fst (scheduler_step (sched w) (optim w))) /\
  (forall w0,
     exists w' evs,
       train_model dataloaders dataset_sizes n w0 = Ok tt w' /\
       trace w' = trace w0 ++ evs /\
       count is_scheduler_step evs = n).
Proof.
  intros Hne. split.
  - intros e v w.
    destruct (run_epoch_spec n e v w Hne)
      as (v' & w' & tl & vl & tp & vp & c & E & Htr & _ & _ & Hs).
    exists v', w', tl, vl, tp, vp, c.
    repeat split; auto. apply epoch_rest_no_scheduler_step.
  - intros w0.
    destruct (train_loop_shape n w0 Hne n)
      as (v & w & evs & E & _ & _ & Htr & Hc).
    eexists. eexists.
    split; [apply (train_model_after_loop _ _ _ _ E)|].
    cbn [trace]. rewrite Htr, <- app_assoc. split; [reflexivity|].
    change (DeepCopy :: evs) with ([DeepCopy] ++ evs).
    rewrite !count_app, Hc. cbn. lia.
Qed.

(** *** The values of the batches *)

(** One batch, exactly: what it returns and the world it leaves. *)
Lemma batch_step_exact ph b w :
  batch_step ph b w =
    Ok (criterion (training w) (state_dict w) (inputs_of b) (labels_of b),
        List.length (inputs_of b),
        count_eq (map (predict (training w) (state_dict w) (inputs_of b))
                      (inputs_of b)) (labels_of b),
        map (predict (training w) (state_dict w) (inputs_of b))
            (inputs_of b))
       (after_batch ph b w).
Proof.
  destruct ph;
    cbv [batch_step bind call_zero_grad call_model call_backward
         call_optimizer_step ret is_train after_batch];
    cbn [state_dict training grad optim sched trace argmax loss_item];
    rewrite <- ?app_assoc; reflexivity.
Qed.

Lemma enter_phase_start ph w : exec (enter_phase ph) w = phase_start ph w.
Proof.
  destruct ph;
    cbv [exec final enter_phase is_train bind call_scheduler_step
         model_train phase_start];
    cbn [state_dict training grad optim sched trace];
    rewrite <- ?app_assoc; reflexivity.
Qed.

(** The statistics the batch loop accumulates are the values of the
    batches. *)
Lemma phase_stats_values ph bs : forall w,
  phase_stats ph bs w = batch_values ph bs w.
Proof.
  induction bs as [|b bs IH]; intros w; [reflexivity|].
  cbn [phase_stats batch_values]. rewrite batch_step_exact, IH.
  replace (List.length (inputs_of b)) with (List.length b)
    by (symmetry; apply length_map).
  reflexivity.
Qed.

(** C7.  A phase of an epoch reports as its loss the sum, over the
    batches of its pass, of the criterion's loss on the batch times the
    number of samples of the batch, divided by the dataset size, and as
    its accuracy the number of predictions that agree with their labels,
    summed over the batches, divided by the dataset size; each batch is
    evaluated by the model as the batches before it have left it.  The
    phase appends the loss to the series of the phase.  When
    [train_model] hands the loss history to the plot, the train and the
    val series both hold [num_epochs] losses. *)
Theorem epoch_metrics_and_loss_history n :
  loaders_nonempty dataloaders dataset_sizes ->
  (forall ph e v w,
     let values := batch_values ph (dataloaders ph e) (phase_start ph w) in
     exists epoch_loss v' w' before after,
       run_phase dataloaders dataset_sizes ph e v w = Ok v' w' /\
       (epoch_loss == weighted_loss values / Qnat (dataset_sizes ph))%Q /\
       trace w' =
         trace w ++ before
           ++ Print (LPhase ph epoch_loss
                       (Qnat (total_corrects values)
                        / Qnat (dataset_sizes ph)))
           :: after /\
       train_losses v' =
         (if is_train ph then train_losses v ++ [epoch_loss]
          else train_losses v) /\
       val_losses v' =
         (if is_train ph then val_losses v
          else val_losses v ++ [epoch_loss])) /\
  (forall w0,
     exists w' training_loss validation_loss before,
       train_model dataloaders dataset_sizes n w0 = Ok tt w' /\
       trace w' =
         trace w0 ++ before
           ++ [PlotLearningCurve training_loss validation_loss n;
               LoadStateDict] /\
       List.length training_loss = n /\
       List.length validation_loss = n).
Proof.
  intros Hne. split.
  - intros ph e v w values. destruct Hne as [Hsize Hbs].
    destruct (run_phase_spec ph e v w (Hsize ph) (Hbs ph e))
      as (l & p & v' & w' & E & Hl & Htr & Htl & Hvl & _).
    rewrite enter_phase_start, phase_stats_values in Hl, Htr.
    fold values in Hl, Htr.
    exists l, v', w'. eexists. eexists.
    split; [exact E|]. split; [exact Hl|]. split; [|split; assumption].
    rewrite Htr. rewrite (app_assoc (enter_events ph)). reflexivity.
  - intros w0.
    destruct (train_loop_shape n w0 Hne n)
      as (v & w & evs & E & Ht & Hv & Htr & _).
    exists (mkWorld (best_model_wts v) (training w) (grad w) (optim w)
                    (sched w)
                    (trace w ++ [Print LTime; Print (LBestAcc (best_acc v));
                                 PlotLearningCurve (train_losses v)
                                                   (val_losses v) n;
                                 LoadStateDict])),
           (train_losses v), (val_losses v),
           (DeepCopy :: evs ++ [Print LTime; Print (LBestAcc (best_acc v))]).
    split; [apply (train_model_after_loop _ _ _ _ E)|].
    cbn [trace]. rewrite Htr. repeat split; auto.
    rewrite <- !app_assoc. cbn [app]. rewrite <- app_assoc. reflexivity.
Qed.

End TrainModelFacts.

(** ** The loops of [visualize_model] *)

Section VisualizeFacts.

Context {T : Torch}.
Variable class_names : list string.

Lemma show_sample_spec n wt preds labels j v w name :
  nth_error class_names (nth j preds 0) = Some name ->
  total v + List.length labels <> 0 ->
  let shown := images_so_far v + 1 in
  let probability :=
    (Qnat (100 * (correct v + count_eq preds labels))
     / Qnat (total v + List.length labels))%Q in
  let v' := mkVis shown (total v + List.length labels)
                  (correct v + count_eq preds labels)
                  (prob_estimates v ++ [probability])
                  (pred_estimates v ++ [nth j preds 0])
                  (pred_groundtruth v ++ [nth j labels 0]) in
  show_sample class_names n wt preds labels j v w =
    if Nat.eqb shown n
    then Ok Returned
           (mkWorld (state_dict w) wt (grad w) (optim w) (sched w)
                    (trace w ++ sample_events n shown name probability
                             ++ return_events wt v'))
    else Ok (Next v')
           (mkWorld (state_dict w) (training w) (grad w) (optim w) (sched w)
                    (trace w ++ sample_events n shown name probability)).
Proof.
  intros Hname Htotal shown probability v'.
  unfold show_sample, bind, class_name. cbn [emit]. rewrite Hname.
  cbn [ret emit]. unfold true_div.
  destruct (Nat.eqb_spec (total v + List.length labels) 0) as [|_];
    [contradiction|].
  cbn [ret]. fold shown. fold probability. fold v'.
  destruct (Nat.eqb shown n);
    cbv [model_train emit ret log bind state_dict training grad optim sched
         trace sample_events return_events];
    rewrite <- !app_assoc; reflexivity.
Qed.


Lemma renders_app a b x y x' y' :
  renders a x y -> renders b x' y' -> renders (a ++ b) (x + x') (y + y').
Proof.
  intros (A1 & A2 & A3 & A4) (B1 & B2 & B3 & B4). unfold renders.
  rewrite !count_app. repeat split; lia.
Qed.

Lemma renders_sample n shown name probability :
  renders (sample_events n shown name probability) 1 0.
Proof. repeat split. Qed.

Lemma renders_forward : renders [Forward false] 0 1.
Proof. repeat split. Qed.

Lemma nth_map_lt (f : image -> nat) N l j :
  (forall x, f x < N) -> j < List.length l -> nth j (map f l) 0 < N.
Proof.
  intros Hf Hj.
  assert (Hin : In (nth j (map f l) 0) (map f l))
    by (apply nth_In; now rewrite length_map).
  apply in_map_iff in Hin. destruct Hin as (x & <- & _). apply Hf.
Qed.

(** The sample loop when the requested count is not reached in it. *)
Lemma for_samples_next n wt preds labels :
  labels <> [] ->
  forall js v w,
  (forall j, In j js -> nth j preds 0 < List.length class_names) ->
  images_so_far v + List.length js < n ->
  exists v' w' evs,
    for_samples class_names n wt preds labels js v w = Ok (Next v') w' /\
    images_so_far v' = images_so_far v + List.length js /\
    pred_groundtruth v' =
      pred_groundtruth v ++ map (fun j => nth j labels 0) js /\
    List.length (prob_estimates v') =
      List.length (prob_estimates v) + List.length js /\
    trace w' = trace w ++ evs /\
    renders evs (List.length js) 0 /\
    training w' = training w.
Proof.
  intros Hlab. induction js as [|j js IH]; intros v w Hnames Hlt.
  - exists v, w, []. cbn. rewrite !Nat.add_0_r, !app_nil_r.
    repeat split; reflexivity.
  - cbn [List.length] in Hlt.
    destruct (nth_error class_names (nth j preds 0)) as [name|] eqn:Hname.
    2:{ apply nth_error_None in Hname.
        specialize (Hnames j (or_introl eq_refl)). lia. }
    assert (Htotal : total v + List.length labels <> 0)
      by (destruct labels; [contradiction|cbn; lia]).
    cbn [for_samples]. unfold bind.
    rewrite (show_sample_spec n wt preds labels j v w name Hname Htotal).
    destruct (Nat.eqb_spec (images_so_far v + 1) n) as [Heq|_]; [lia|].
    match goal with
    | |- context [for_samples _ _ _ _ _ js ?a ?b] =>
        set (v1 := a); set (w1 := b)
    end.
    destruct (IH v1 w1) as (v' & w' & evs & E & Hi & Hg & Hp & Htr & Hr & Hm).
    { intros j' Hj'. apply Hnames. now right. }
    { subst v1. cbn [images_so_far]. lia. }
    exists v', w', (sample_events n (images_so_far v + 1) name
                      (Qnat (100 * (correct v + count_eq preds labels))
                       / Qnat (total v + List.length labels))%Q ++ evs).
    subst v1 w1.
    cbn [images_so_far pred_groundtruth prob_estimates trace training]
      in Hi, Hg, Hp, Htr, Hm.
    split; [exact E|].
    split; [cbn [List.length]; lia|].
    split; [rewrite Hg, <- app_assoc; reflexivity|].
    split; [rewrite Hp, length_app; cbn [List.length]; lia|].
    split; [rewrite Htr, <- app_assoc; reflexivity|].
    split; [|exact Hm].
    apply (renders_app _ _ 1 0 _ 0); [apply renders_sample|exact Hr].
Qed.


(** The sample loop when the requested count is reached in it. *)
Lemma for_samples_return n wt preds labels :
  labels <> [] ->
  forall js v w,
  (forall j, In j js -> nth j preds 0 < List.length class_names) ->
  images_so_far v < n ->
  n <= images_so_far v + List.length js ->
  exists vf w' evs,
    for_samples class_names n wt preds labels js v w = Ok Returned w' /\
    trace w' = trace w ++ evs ++ return_events wt vf /\
    renders evs (n - images_so_far v) 0 /\
    pred_groundtruth vf =
      pred_groundtruth v
      ++ map (fun j => nth j labels 0) (firstn (n - images_so_far v) js) /\
    List.length (prob_estimates vf) =
      List.length (prob_estimates v) + (n - images_so_far v) /\
    training w' = wt.
Proof.
  intros Hlab. induction js as [|j js IH]; intros v w Hnames Hlt Hle.
  - cbn [List.length] in Hle. lia.
  - cbn [List.length] in Hle.
    destruct (nth_error class_names (nth j preds 0)) as [name|] eqn:Hname.
    2:{ apply nth_error_None in Hname.
        specialize (Hnames j (or_introl eq_refl)). lia. }
    assert (Htotal : total v + List.length labels <> 0)
      by (destruct labels; [contradiction|cbn; lia]).
    cbn [for_samples]. unfold bind.
    rewrite (show_sample_spec n wt preds labels j v w name Hname Htotal).
    destruct (Nat.eqb_spec (images_so_far v + 1) n) as [Heq|Hneq].
    + eexists (mkVis _ _ _ _ _ _). eexists.
      exists (sample_events n (images_so_far v + 1) name
                (Qnat (100 * (correct v + count_eq preds labels))
                 / Qnat (total v + List.length labels))%Q).
      split; [reflexivity|].
      replace (n - images_so_far v) with 1 by lia.
      cbn [trace training pred_groundtruth prob_estimates firstn map].
      rewrite length_app. cbn [List.length].
      repeat split; reflexivity.
    + match goal with
      | |- context [for_samples _ _ _ _ _ js ?a ?b] =>
          set (v1 := a); set (w1 := b)
      end.
      destruct (IH v1 w1)
        as (vf & w' & evs & E & Htr & Hr & Hg & Hp & Hm).
      { intros j' Hj'. apply Hnames. now right. }
      { subst v1. cbn [images_so_far]. lia. }
      { subst v1. cbn [images_so_far]. lia. }
      exists vf, w',
        (sample_events n (images_so_far v + 1) name
           (Qnat (100 * (correct v + count_eq preds labels))
            / Qnat (total v + List.length labels))%Q ++ evs).
      subst v1 w1.
      cbn [images_so_far pred_groundtruth prob_estimates trace training]
        in Htr, Hr, Hg, Hp, Hm.
      replace (n - images_so_far v) with (S (n - (images_so_far v + 1)))
        by lia.
      split; [exact E|].
      split; [rewrite Htr, <- !app_assoc; reflexivity|].
      split; [apply (renders_app _ _ 1 0 _ 0);
              [apply renders_sample|exact Hr]|].
      split; [rewrite Hg, <- app_assoc; reflexivity|].
      split; [rewrite Hp, length_app; cbn [List.length]; lia|exact Hm].
Qed.


Lemma nth_seq_all (l : list nat) :
  map (fun j => nth j l 0) (seq 0 (List.length l)) = l.
Proof.
  induction l as [|x l IH]; [reflexivity|].
  cbn [List.length seq map nth]. f_equal.
  rewrite <- seq_shift, map_map. exact IH.
Qed.

Lemma batch_names_cover (Hnamed : predictions_named class_names)
    mode wts (inputs : list image) j :
  In j (seq 0 (List.length inputs)) ->
  nth j (map (predict mode wts inputs) inputs) 0 < List.length class_names.
Proof.
  intros Hj. apply in_seq in Hj. apply nth_map_lt; [apply Hnamed|lia].
Qed.

Lemma call_model_spec g inputs w :
  call_model g inputs w =
    Ok (mkOutputs (map (predict (training w) (state_dict w) inputs) inputs)
                  (criterion (training w) (state_dict w) inputs))
       (mkWorld (forward_buffers (training w) (state_dict w) inputs)
                (training w) (grad w) (optim w) (sched w)
                (trace w ++ [Forward g])).
Proof. reflexivity. Qed.

(** One batch that does not reach the requested count. *)
Lemma show_batch_next (Hnamed : predictions_named class_names) n wt b v w :
  images_so_far v + List.length b < n ->
  exists v' w' evs,
    show_batch class_names n wt b v w = Ok (Next v') w' /\
    images_so_far v' = images_so_far v + List.length b /\
    pred_groundtruth v' = pred_groundtruth v ++ labels_of b /\
    List.length (prob_estimates v') =
      List.length (prob_estimates v) + List.length b /\
    trace w' = trace w ++ evs /\
    renders evs (List.length b) 1 /\
    training w' = training w.
Proof.
  intros Hlt. unfold show_batch, bind. rewrite call_model_spec.
  cbn [argmax].
  set (preds := map _ (inputs_of b)).
  set (w1 := mkWorld _ _ _ _ _ _).
  assert (Hlen : List.length (inputs_of b) = List.length b)
    by apply length_map.
  assert (Hlen' : List.length (labels_of b) = List.length b)
    by apply length_map.
  assert (Hcase : b = [] \/ labels_of b <> [])
    by (destruct b; [left; reflexivity|right; discriminate]).
  destruct Hcase as [Hb|Hb].
  - subst b. exists v, w1, [Forward false]. cbn.
    rewrite !Nat.add_0_r, app_nil_r. repeat split; reflexivity.
  - destruct (for_samples_next n wt preds (labels_of b)) with
      (js := seq 0 (List.length (inputs_of b))) (v := v) (w := w1)
      as (v' & w' & evs & E & Hi & Hg & Hp & Htr & Hr & Hm).
    { exact Hb. }
    { intros j Hj. subst preds. now apply batch_names_cover. }
    { rewrite length_seq, Hlen. exact Hlt. }
    rewrite length_seq, Hlen in *.
    exists v', w', ([Forward false] ++ evs).
    split; [exact E|]. split; [exact Hi|].
    split; [rewrite Hg, <- Hlen', nth_seq_all; reflexivity|].
    split; [exact Hp|].
    split; [rewrite Htr; subst w1; cbn [trace];
            now rewrite <- app_assoc|].
    split; [apply (renders_app _ _ 0 1 _ 0);
            [apply renders_forward|exact Hr]|exact Hm].
Qed.

(** One batch in which the requested count is reached. *)
Lemma show_batch_return (Hnamed : predictions_named class_names)
    n wt b v w :
  images_so_far v < n ->
  n <= images_so_far v + List.length b ->
  exists vf w' evs,
    show_batch class_names n wt b v w = Ok Returned w' /\
    trace w' = trace w ++ evs ++ return_events wt vf /\
    renders evs (n - images_so_far v) 1 /\
    pred_groundtruth vf =
      pred_groundtruth v ++ firstn (n - images_so_far v) (labels_of b) /\
    List.length (prob_estimates vf) =
      List.length (prob_estimates v) + (n - images_so_far v) /\
    training w' = wt.
Proof.
  intros Hlt Hle. unfold show_batch, bind. rewrite call_model_spec.
  cbn [argmax].
  set (preds := map _ (inputs_of b)).
  set (w1 := mkWorld _ _ _ _ _ _).
  assert (Hlen : List.length (inputs_of b) = List.length b)
    by apply length_map.
  assert (Hlen' : List.length (labels_of b) = List.length b)
    by apply length_map.
  destruct (for_samples_return n wt preds (labels_of b)) with
    (js := seq 0 (List.length (inputs_of b))) (v := v) (w := w1)
    as (vf & w' & evs & E & Htr & Hr & Hg & Hp & Hm).
  { destruct b; [cbn in Hle; lia|discriminate]. }
  { intros j Hj. subst preds. now apply batch_names_cover. }
  { exact Hlt. }
  { rewrite length_seq, Hlen. exact Hle. }
  exists vf, w', ([Forward false] ++ evs).
  split; [exact E|].
  split; [rewrite Htr; subst w1; cbn [trace]; now rewrite <- !app_assoc|].
  split; [apply (renders_app _ _ 0 1 _ 0);
          [apply renders_forward|exact Hr]|].
  split; [|split; [exact Hp|exact Hm]].
  rewrite Hg, <- firstn_map, Hlen, <- Hlen', nth_seq_all. reflexivity.
Qed.



(** The batch loop over a pass that holds the requested count. *)
Lemma for_val_batches_return (Hnamed : predictions_named class_names) n wt :
  forall bs v w,
  images_so_far v < n ->
  n <= images_so_far v + List.length (List.concat bs) ->
  exists vf w' evs passes,
    for_val_batches class_names n wt bs v w = Ok Returned w' /\
    trace w' = trace w ++ evs ++ return_events wt vf /\
    renders evs (n - images_so_far v) passes /\
    pred_groundtruth vf =
      pred_groundtruth v
      ++ firstn (n - images_so_far v) (labels_in_order bs) /\
    List.length (prob_estimates vf) =
      List.length (prob_estimates v) + (n - images_so_far v) /\
    training w' = wt.
Proof.
  induction bs as [|b bs IH]; intros v w Hlt Hle.
  - cbn in Hle. lia.
  - cbn [List.concat] in Hle. rewrite length_app in Hle.
    assert (Hlab : labels_in_order (b :: bs)
                   = labels_of b ++ labels_in_order bs)
      by (unfold labels_in_order, labels_of; cbn [List.concat];
          apply map_app).
    assert (Hlen : List.length (labels_of b) = List.length b)
      by apply length_map.
    cbn [for_val_batches]. unfold bind.
    destruct (le_lt_dec n (images_so_far v + List.length b)) as [Hin|Hout].
    + destruct (show_batch_return Hnamed n wt b v w Hlt Hin)
        as (vf & w' & evs & E & Htr & Hr & Hg & Hp & Hm).
      rewrite E. exists vf, w', evs, 1.
      split; [reflexivity|]. split; [exact Htr|]. split; [exact Hr|].
      split; [|split; assumption].
      rewrite Hg, Hlab, firstn_app.
      replace (n - images_so_far v - List.length (labels_of b)) with 0
        by lia.
      now rewrite firstn_O, app_nil_r.
    + destruct (show_batch_next Hnamed n wt b v w Hout)
        as (v1 & w1 & evs1 & E1 & Hi1 & Hg1 & Hp1 & Htr1 & Hr1 & Hm1).
      rewrite E1.
      destruct (IH v1 w1)
        as (vf & w' & evs & k & E & Htr & Hr & Hg & Hp & Hm); [lia|lia|].
      exists vf, w', (evs1 ++ evs), (1 + k).
      split; [exact E|].
      split; [rewrite Htr, Htr1; now rewrite <- !app_assoc|].
      split.
      { replace (n - images_so_far v)
          with (List.length b + (n - images_so_far v1)) by lia.
        apply renders_app; assumption. }
      split; [|split; [lia|exact Hm]].
      rewrite Hg, Hg1, Hlab, firstn_app, <- app_assoc.
      rewrite (firstn_all2 (labels_of b)) by lia.
      do 3 f_equal. lia.
Qed.


(** ** The claims about [visualize_model] *)

(** C4.  With 24 requested samples and a validation pass of at least 24
    images, [visualize_model] renders 24 samples, then restores the
    model's mode, prints the three accumulated arrays and calls
    [compute_roc_metrics], once, with the ground-truth labels of the 24
    samples shown and their 24 scores, and returns. *)
Theorem visualization_stops_at_24 val_batches w :
  predictions_named class_names ->
  24 <= List.length (List.concat val_batches) ->
  exists w' evs passes vf,
    visualize_model val_batches class_names 24 w = Ok tt w' /\
    trace w' =
      trace w ++ [ModelTrain false; Figure] ++ evs
              ++ return_events (training w) vf /\
    renders evs 24 passes /\
    pred_groundtruth vf = firstn 24 (labels_in_order val_batches) /\
    List.length (prob_estimates vf) = 24 /\
    training w' = training w.
Proof.
  intros Hnamed Hle.
  unfold visualize_model, bind.
  cbv [get_training model_train emit log].
  cbn [state_dict training grad optim sched trace].
  match goal with
  | |- context [for_val_batches _ _ _ _ ?a ?b] => set (v0 := a); set (w0 := b)
  end.
  destruct (for_val_batches_return Hnamed 24 (training w) val_batches v0 w0)
    as (vf & w' & evs & k & E & Htr & Hr & Hg & Hp & Hm).
  { subst v0. cbn. lia. }
  { subst v0. cbn [images_so_far]. lia. }
  rewrite E. exists w', evs, k, vf.
  subst v0 w0. cbn [images_so_far pred_groundtruth prob_estimates trace]
    in Htr, Hr, Hg, Hp.
  rewrite Nat.sub_0_r in Hr, Hg, Hp.
  split; [reflexivity|].
  split; [rewrite Htr, <- !app_assoc; reflexivity|].
  split; [exact Hr|]. split; [exact Hg|]. split; [exact Hp|exact Hm].
Qed.


End VisualizeFacts.

(** ** The score handed to the ROC computation *)

(** C3.  The score [visualize_model] appends for a sample is not the
    running accuracy over the samples shown so far: [total] and [correct]
    are advanced by the size and the number of correct predictions of the
    whole batch for every sample of the batch.  On a first batch of four
    images of which the first two are predicted right, the score of the
    first sample is 50, while the first sample shown alone was predicted
    right, a running accuracy of 100. *)
Theorem first_score_counts_whole_batch :
  exists w' gts score probs,
    visualize_model (T := Toy.torch) Toy.val_batches Toy.class_names 24
                    Toy.w0 = Ok tt w' /\
    last (trace w') Figure = ComputeRocMetrics gts (score :: probs) /\
    (score == 50)%Q /\
    (running_accuracy (T := Toy.torch) (state_dict Toy.w0)
                      (firstn 1 (List.concat Toy.val_batches)) == 100)%Q.
Proof.
  do 4 eexists. split; [vm_compute; reflexivity|].
  split; [vm_compute; reflexivity|]. split; reflexivity.
Qed.

(** ** Loading the dataset *)

(** C8, as amended.  When [ImageFolder] raises on the train folder, or
    loads it and raises on the val folder, the script stops with that
    error before it makes any further call, so before any training.  The
    class folders of train and val are never compared: the run does not
    depend on the class names of the val folder. *)
Theorem load_errors_abort_and_val_classes_unused :
  (forall (T : Torch) (ImageFolder : string -> exn + image_folder)
          model_ft model_conv w e,
     ImageFolder "data/pituitary_data/train"%string = inl e \/
     (exists d, ImageFolder "data/pituitary_data/train"%string = inr d) /\
     ImageFolder "data/pituitary_data/val"%string = inl e ->
     main ImageFolder model_ft model_conv w = Raise e w) /\
  (forall (T : Torch) (ImageFolder ImageFolder' : string -> exn + image_folder)
          model_ft model_conv w train val names,
     ImageFolder "data/pituitary_data/train"%string = inr train ->
     ImageFolder "data/pituitary_data/val"%string = inr val ->
     ImageFolder' "data/pituitary_data/train"%string = inr train ->
     ImageFolder' "data/pituitary_data/val"%string =
       inr (mkFolder names (len val) (passes val)) ->
     main ImageFolder model_ft model_conv w =
     main ImageFolder' model_ft model_conv w).
Proof.
  split.
  - intros T ImageFolder ft conv w e [H|[[d Hd] H]];
      unfold main, bind, load.
    + now rewrite H.
    + now rewrite Hd, H.
  - intros T IF1 IF2 ft conv w train val names H1 H2 H3 H4.
    unfold main, bind, load. rewrite H1, H2, H3, H4. reflexivity.
Qed.

(** C8 as stated fails: a dataset whose val folder has one class
    folder and whose train folder has two loads, and the script trains
    both models on it, five epochs each. *)
Lemma inconsistent_folders_load_and_train :
  classes Toy.train_folder <> classes Toy.val_folder /\
  exists w',
    script (T := Toy.torch) Toy.ImageFolder Toy.model_ft Toy.model_conv
      = Ok tt w' /\
    count is_scheduler_step (trace w') = 10.
Proof.
  split; [discriminate|].
  eexists. split; vm_compute; reflexivity.
Qed.

(** ** The claims on a concrete run *)

(** C2 as stated fails when the first epoch's validation accuracy is 0.0:
    that epoch is the one with the largest validation accuracy so far,
    yet the best snapshot is still the one taken at entry, not the weights
    the epoch ended with. *)
Lemma best_snapshot_of_no_epoch :
  exists v w,
    train_loop (T := Toy.torch) Toy.dataloaders Toy.dataset_sizes 1
               (seq 0 1) Toy.w0 = Ok v w /\
    is_first_best (T := Toy.torch) Toy.dataloaders Toy.dataset_sizes
                  1 1 0 Toy.w0 /\
    best_model_wts v = state_dict Toy.w0 /\
    best_model_wts v <>
      live_after (T := Toy.torch) Toy.dataloaders Toy.dataset_sizes
                 1 1 Toy.w0.
Proof.
  do 2 eexists. split; [vm_compute; reflexivity|].
  split; [|split; [reflexivity|vm_compute; discriminate]].
  split; [lia|]. split; intros e He; [|lia].
  replace e with 0 by lia. apply Qle_refl.
Qed.

(** C2, as amended, on the second epoch of a run of two. *)
Lemma best_snapshot_tracks_first_best_witness :
  exists v w v' w',
    train_loop (T := Toy.torch) Toy.dataloaders Toy.dataset_sizes 2
               (seq 0 1) Toy.w0 = Ok v w /\
    best_tracks (T := Toy.torch) Toy.dataloaders Toy.dataset_sizes
                2 1 Toy.w0 v /\
    run_epoch (T := Toy.torch) Toy.dataloaders Toy.dataset_sizes 2 1 v w
      = Ok v' w' /\
    ((best_acc v
      < epoch_val_acc (T := Toy.torch) Toy.dataloaders Toy.dataset_sizes
                      2 1 Toy.w0)%Q ->
     best_model_wts v' = state_dict w' /\
     best_acc v' =
       epoch_val_acc (T := Toy.torch) Toy.dataloaders Toy.dataset_sizes
                     2 1 Toy.w0) /\
    (~ (best_acc v
        < epoch_val_acc (T := Toy.torch) Toy.dataloaders Toy.dataset_sizes
                        2 1 Toy.w0)%Q ->
     best_model_wts v' = best_model_wts v /\ best_acc v' = best_acc v).
Proof.
  apply (best_snapshot_tracks_first_best (T := Toy.torch)
           Toy.dataloaders Toy.dataset_sizes 2 Toy.w0 1).
  - intros w xs. reflexivity.
  - split; intros ph; [|intros e]; destruct ph; discriminate.
Defined.

(** C1 on a run of three epochs, whose second epoch is the best. *)
Lemma train_model_returns_best_witness :
  exists v w w',
    train_loop (T := Toy.torch) Toy.dataloaders Toy.dataset_sizes 3
               (seq 0 3) Toy.w0 = Ok v w /\
    train_model (T := Toy.torch) Toy.dataloaders Toy.dataset_sizes 3
                Toy.w0 = Ok tt w' /\
    state_dict w' = best_model_wts v /\
    forall e, e < 3 ->
      (val_accuracy (T := Toy.torch) Toy.val_set
         (live_after (T := Toy.torch) Toy.dataloaders Toy.dataset_sizes
                     3 (S e) Toy.w0)
       <= val_accuracy (T := Toy.torch) Toy.val_set (state_dict w'))%Q.
Proof.
  apply (train_model_returns_best (T := Toy.torch)
           Toy.dataloaders Toy.dataset_sizes Toy.val_set 3 Toy.w0).
  - intros w xs. reflexivity.
  - intros w xs x. reflexivity.
  - split; intros ph; [|intros e]; destruct ph; discriminate.
  - split; [reflexivity|]. intros e. apply Permutation_refl.
Defined.

(** C10 on a run of one epoch, whose validation accuracy is 0.0. *)
Lemma no_improvement_returns_entry_snapshot_witness :
  exists w',
    train_model (T := Toy.torch) Toy.dataloaders Toy.dataset_sizes 1
                Toy.w0 = Ok tt w' /\
    state_dict w' = state_dict Toy.w0.
Proof.
  apply (no_improvement_returns_entry_snapshot (T := Toy.torch)
           Toy.dataloaders Toy.dataset_sizes 1 Toy.w0).
  - intros w xs. reflexivity.
  - split; intros ph; [|intros e]; destruct ph; discriminate.
  - intros e He. replace e with 0 by lia. vm_compute. discriminate.
Defined.

(** C5 on the VAL phase of a first epoch. *)
Lemma val_phase_changes_no_parameter_witness :
  exists v' w' report evs,
    run_phase (T := Toy.torch) Toy.dataloaders Toy.dataset_sizes Val 0
              (mkVars (T := Toy.torch) [] [] 0 0%Q []) Toy.w0 = Ok v' w' /\
    state_dict w' = state_dict Toy.w0 /\
    optim w' = optim Toy.w0 /\
    trace w' = trace Toy.w0 ++ evs /\
    evs = ModelTrain false
          :: flat_map (fun _ => [ZeroGrad; Forward false])
                      (Toy.dataloaders Val 0)
          ++ report /\
    Forall (fun ev => ev = DeepCopy \/ exists l, ev = Print l) report /\
    count is_gradient_call evs = 0.
Proof.
  apply (val_phase_changes_no_parameter (T := Toy.torch)
           Toy.dataloaders Toy.dataset_sizes 0
           (mkVars (T := Toy.torch) [] [] 0 0%Q []) Toy.w0).
  - intros w xs. reflexivity.
  - split; intros ph; [|intros e]; destruct ph; discriminate.
Defined.

(** C6 on a run of two epochs. *)
Lemma scheduler_steps_once_per_epoch_witness :
  exists w' evs,
    train_model (T := Toy.torch) Toy.dataloaders Toy.dataset_sizes 2
                Toy.w0 = Ok tt w' /\
    trace w' = trace Toy.w0 ++ evs /\
    count is_scheduler_step evs = 2.
Proof.
  apply (scheduler_steps_once_per_epoch (T := Toy.torch)
           Toy.dataloaders Toy.dataset_sizes 2).
  split; intros ph; [|intros e]; destruct ph; discriminate.
Defined.

(** C7 on the VAL phase of a first epoch, two batches of two samples and
    one, each with loss 1 and every prediction right: the loss reported
    is (1 * 2 + 1 * 1) / 3 and the accuracy (2 + 1) / 3.  And on a run of
    two epochs. *)
Lemma epoch_metrics_and_loss_history_witness :
  (exists epoch_loss v' w' before after,
     run_phase (T := Toy.torch) Toy.dataloaders Toy.dataset_sizes Val 0
               (mkVars (T := Toy.torch) [] [] 0 0%Q []) Toy.w0 = Ok v' w' /\
     (epoch_loss
      == weighted_loss [(1, 2%nat, 2%nat); (1, 1%nat, 1%nat)] / Qnat 3)%Q /\
     trace w' =
       trace Toy.w0 ++ before
         ++ Print (LPhase Val epoch_loss
                     (Qnat (total_corrects [(1%Q, 2, 2); (1%Q, 1, 1)])
                      / Qnat 3))
         :: after /\
     train_losses v' = [] /\
     val_losses v' = [] ++ [epoch_loss]) /\
  (exists w' training_loss validation_loss before,
     train_model (T := Toy.torch) Toy.dataloaders Toy.dataset_sizes 2
                 Toy.w0 = Ok tt w' /\
     trace w' =
       trace Toy.w0 ++ before
         ++ [PlotLearningCurve training_loss validation_loss 2;
             LoadStateDict] /\
     List.length training_loss = 2 /\
     List.length validation_loss = 2).
Proof.
  assert (Hne : loaders_nonempty (T := Toy.torch) Toy.dataloaders
                                 Toy.dataset_sizes)
    by (split; intros ph; [|intros e]; destruct ph; discriminate).
  split.
  - exact (proj1 (epoch_metrics_and_loss_history (T := Toy.torch)
                    Toy.dataloaders Toy.dataset_sizes 2 Hne)
                 Val 0 (mkVars (T := Toy.torch) [] [] 0 0%Q []) Toy.w0).
  - exact (proj2 (epoch_metrics_and_loss_history (T := Toy.torch)
                    Toy.dataloaders Toy.dataset_sizes 2 Hne) Toy.w0).
Defined.

(** The concrete model predicts class 0 or 1, and both have a name. *)
Lemma toy_predictions_named :
  predictions_named (T := Toy.torch) Toy.class_names.
Proof.
  intros mode w xs x. cbn [predict Toy.torch Toy.class_names List.length].
  destruct mode; apply Nat.mod_upper_bound; discriminate.
Qed.

(** C4 on a validation pass of 24 images. *)
Lemma visualization_stops_at_24_witness :
  exists w' evs passes vf,
    visualize_model (T := Toy.torch) Toy.val_batches Toy.class_names 24
                    Toy.w0 = Ok tt w' /\
    trace w' =
      trace Toy.w0 ++ [ModelTrain false; Figure] ++ evs
                   ++ return_events (training Toy.w0) vf /\
    renders evs 24 passes /\
    pred_groundtruth vf = firstn 24 (labels_in_order (T := Toy.torch) Toy.val_batches) /\
    List.length (prob_estimates vf) = 24 /\
    training w' = training Toy.w0.
Proof.
  apply (visualization_stops_at_24 (T := Toy.torch) Toy.class_names
           Toy.val_batches Toy.w0).
  - exact toy_predictions_named.
  - vm_compute. reflexivity.
Defined.


(** * Further properties *)

Lemma count_cons p a l :
  count p (a :: l) = (if p a then 1 else 0) + count p l.
Proof. unfold count. cbn [filter]. destruct (p a); reflexivity. Qed.

Lemma count_nil p : count p [] = 0.
Proof. reflexivity. Qed.

Lemma count_eq_le preds labels : count_eq preds labels <= List.length labels.
Proof.
  revert labels. induction preds as [|p ps IH]; intros [|l ls]; cbn; try lia.
  specialize (IH ls). destruct (Nat.eqb p l); lia.
Qed.

Lemma Qnat_pos n : n <> 0 -> (0 < Qnat n)%Q.
Proof.
  intros Hn. unfold Qnat. change 0%Q with (inject_Z 0).
  rewrite <- Zlt_Qlt. lia.
Qed.

Lemma Qnat_le a b : a <= b -> (Qnat a <= Qnat b)%Q.
Proof. intros H. unfold Qnat. rewrite <- Zle_Qle. lia. Qed.

Lemma Qnat_div_le_1 a b : a <= b -> b <> 0 -> (Qnat a / Qnat b <= 1)%Q.
Proof.
  intros Hab Hb. apply Qle_shift_div_r; [now apply Qnat_pos|].
  rewrite Qmult_1_l. now apply Qnat_le.
Qed.

Lemma percentage_of_part a b :
  a <= b -> b <> 0 -> is_percentage (Qnat (100 * a) / Qnat b).
Proof.
  intros Hab Hb. split; [apply Qnat_div_nonneg|].
  apply Qle_shift_div_r; [now apply Qnat_pos|].
  unfold Qnat. change 100%Q with (inject_Z 100).
  rewrite <- inject_Z_mult, <- Zle_Qle. lia.
Qed.

(** ** [train_model]: errors, mode and calls *)

Section TrainModelMore.

Context {T : Torch}.
Variable dataloaders : phase -> nat -> list batch.
Variable dataset_sizes : phase -> nat.

(** A phase over an empty loader: the division by the dataset size comes
    first, then [running_corrects.double()] on the int [0]. *)
Lemma run_phase_empty ph e v w :
  dataloaders ph e = [] ->
  run_phase dataloaders dataset_sizes ph e v w =
    Raise (if Nat.eqb (dataset_sizes ph) 0 then ZeroDivisionError
           else AttributeError)
          (exec (enter_phase ph) w).
Proof.
  intros Hbs. destruct (enter_phase_spec ph w) as (E0 & _).
  unfold run_phase, bind. rewrite E0, Hbs. cbn [for_batches ret].
  unfold float_div. destruct (Nat.eqb (dataset_sizes ph) 0); reflexivity.
Qed.

(** X2.  When a phase of [train_model] fails.  A phase returns exactly
    when its dataset size is not 0 and its loader yields a batch.  With a
    dataset size of 0 it raises [ZeroDivisionError] at
    [running_loss / dataset_sizes[phase]], after all its batches, those of
    a TRAIN phase with their optimizer steps, have run; with an empty
    loader and a size other than 0 it raises [AttributeError] at
    [running_corrects.double()], because [running_corrects] is still the
    int [0]. *)
Theorem run_phase_outcome ph e v w :
  match run_phase dataloaders dataset_sizes ph e v w with
  | Ok _ _ => dataset_sizes ph <> 0 /\ dataloaders ph e <> []
  | Raise ex w' =>
      ((ex = ZeroDivisionError /\ dataset_sizes ph = 0) \/
       (ex = AttributeError /\ dataset_sizes ph <> 0 /\
        dataloaders ph e = [])) /\
      trace w' =
        trace w ++ enter_events ph
          ++ flat_map (fun _ => batch_events ph) (dataloaders ph e)
  end.
Proof.
  destruct (enter_phase_spec ph w) as (E0 & Htr0 & _).
  destruct (Nat.eq_dec (dataset_sizes ph) 0) as [Hz|Hnz].
  - set (w0 := exec (enter_phase ph) w) in *.
    destruct (for_batches_spec ph (dataloaders ph e) 0%Q (PyInt 0)
                               (last_preds v) w0)
      as (rl & rc & p & w1 & E1 & Htr1 & _).
    unfold run_phase, bind. rewrite E0, E1. unfold float_div.
    destruct (Nat.eqb_spec (dataset_sizes ph) 0) as [_|Hc]; [|contradiction].
    cbn [raise].
    split; [left; split; [reflexivity|exact Hz]|].
    rewrite Htr1, Htr0, <- app_assoc. reflexivity.
  - assert (Hcase : dataloaders ph e = [] \/ dataloaders ph e <> [])
      by (destruct (dataloaders ph e); [left; reflexivity|right; discriminate]).
    destruct Hcase as [Hbs|Hbs].
    + rewrite (run_phase_empty ph e v w Hbs).
      destruct (Nat.eqb_spec (dataset_sizes ph) 0) as [|_]; [contradiction|].
      split; [right; repeat split; assumption|].
      rewrite Htr0, Hbs. cbn [flat_map]. now rewrite app_nil_r.
    + destruct (run_phase_spec dataloaders dataset_sizes ph e v w Hnz Hbs)
        as (l & p & v' & w' & E & _).
      rewrite E. split; assumption.
Qed.

(** X3.  [train_model] on a train loader that yields no batch in the
    first epoch: the call raises, [ZeroDivisionError] when the train set
    is empty and [AttributeError] otherwise, after the entry snapshot, the
    two opening prints, the scheduler step and [model.train()].  No
    forward pass ran, nothing is plotted and no state dict is loaded; the
    scheduler has advanced and the model is left in train mode. *)
Theorem empty_train_loader_aborts n w0 :
  n <> 0 ->
  dataloaders Train 0 = [] ->
  train_model dataloaders dataset_sizes n w0 =
    Raise (if Nat.eqb (dataset_sizes Train) 0 then ZeroDivisionError
           else AttributeError)
          (mkWorld (state_dict w0) true (grad w0)
                   (snd (scheduler_step (sched w0) (optim w0)))
                   (fst (scheduler_step (sched w0) (optim w0)))
                   (trace w0 ++ [DeepCopy; Print (LEpoch 0 (n - 1));
                                 Print LDashes; SchedulerStep;
                                 ModelTrain true])).
Proof.
  intros Hn Hbs. destruct n as [|n]; [contradiction|].
  unfold train_model, train_loop, bind.
  cbn [seq for_epochs deepcopy_state_dict]. unfold run_epoch, bind.
  cbn [emit]. rewrite (run_phase_empty Train 0 _ _ Hbs).
  cbv [exec final enter_phase is_train bind call_scheduler_step model_train
       log state_dict training grad optim sched trace].
  rewrite <- !app_assoc. reflexivity.
Qed.

Lemma run_epoch_mode n e v w :
  loaders_nonempty dataloaders dataset_sizes ->
  exists v' w',
    run_epoch dataloaders dataset_sizes n e v w = Ok v' w' /\
    training w' = false.
Proof.
  intros [Hsize Hbs]. unfold run_epoch, bind. cbn [emit].
  set (wa := log (Print LDashes) (log (Print (LEpoch e (n - 1))) w)).
  destruct (run_phase_spec dataloaders dataset_sizes Train e v wa
                           (Hsize Train) (Hbs Train e))
    as (l1 & p1 & v1 & w1 & E1 & _).
  rewrite E1.
  destruct (run_phase_spec dataloaders dataset_sizes Val e v1 w1
                           (Hsize Val) (Hbs Val e))
    as (l2 & p2 & v2 & w2 & E2 & _ & _ & _ & _ & _ & _ & Hm & _).
  rewrite E2. cbn [ret]. eexists; eexists; split; [reflexivity|].
  cbn [training log]. exact Hm.
Qed.

Lemma count_flat_batches p ph (bs : list batch) :
  count p (flat_map (fun _ => batch_events ph) bs) =
  List.length bs * count p (batch_events ph).
Proof.
  induction bs as [|b bs IH]; [reflexivity|].
  cbn [flat_map List.length Nat.mul]. now rewrite count_app, IH.
Qed.

Lemma batches_of_S ph k :
  batches_of dataloaders ph (S k) =
  batches_of dataloaders ph k + List.length (dataloaders ph k).
Proof.
  unfold batches_of. rewrite seq_S, map_app, list_sum_app. cbn. lia.
Qed.

(** The calls of one epoch, counted: besides prints and the copy of the
    state dict, the three calls at the heads of the phases and the calls
    of the batches. *)
Lemma run_epoch_calls n e v w :
  loaders_nonempty dataloaders dataset_sizes ->
  exists v' w' evs,
    run_epoch dataloaders dataset_sizes n e v w = Ok v' w' /\
    trace w' = trace w ++ evs /\
    training w' = false /\
    forall p, (forall l, p (Print l) = false) -> p DeepCopy = false ->
      count p evs =
        count p [SchedulerStep; ModelTrain true; ModelTrain false]
        + List.length (dataloaders Train e) * count p (batch_events Train)
        + List.length (dataloaders Val e) * count p (batch_events Val).
Proof.
  intros Hne.
  destruct (run_epoch_spec dataloaders dataset_sizes n e v w Hne)
    as (v' & w' & tl & vl & tp & vp & c & E & Htr & _).
  destruct (run_epoch_mode n e v w Hne) as (v2 & w2 & E2 & Hm).
  rewrite E in E2. injection E2 as <- <-.
  exists v', w'. eexists. split; [exact E|]. split; [exact Htr|].
  split; [exact Hm|].
  intros p Hprint Hcopy. unfold epoch_rest.
  rewrite !count_app, !count_flat_batches.
  set (cT := count p (batch_events Train)).
  set (cV := count p (batch_events Val)).
  destruct c; rewrite ?count_cons, ?count_nil, ?Hprint, ?Hcopy;
    destruct (p SchedulerStep), (p (ModelTrain true)), (p (ModelTrain false));
    lia.
Qed.

(** The loop, counted. *)
Lemma train_loop_calls n w0 :
  loaders_nonempty dataloaders dataset_sizes ->
  forall k,
  exists v w evs,
    train_loop dataloaders dataset_sizes n (seq 0 k) w0 = Ok v w /\
    trace w = trace w0 ++ DeepCopy :: evs /\
    training w = (if Nat.eqb k 0 then training w0 else false) /\
    forall p, (forall l, p (Print l) = false) -> p DeepCopy = false ->
      count p evs =
        k * count p [SchedulerStep; ModelTrain true; ModelTrain false]
        + batches_of dataloaders Train k * count p (batch_events Train)
        + batches_of dataloaders Val k * count p (batch_events Val).
Proof.
  intros Hne. induction k as [|k (v & w & evs & E & Htr & Hm & Hc)].
  - exists (mkVars [] [] (state_dict w0) 0%Q []), (log DeepCopy w0), [].
    split; [reflexivity|]. split; [reflexivity|]. split; [reflexivity|].
    intros p _ _. reflexivity.
  - destruct (run_epoch_calls n k v w Hne)
      as (v' & w' & evs' & E' & Htr' & Hm' & Hc').
    exists v', w', (evs ++ evs'). split.
    { rewrite train_loop_S. unfold bind. rewrite E. exact E'. }
    split; [rewrite Htr', Htr, <- app_assoc; reflexivity|].
    split; [exact Hm'|].
    intros p Hp Hd.
    rewrite count_app, (Hc p Hp Hd), (Hc' p Hp Hd), !batches_of_S.
    set (c3 := count p [SchedulerStep; ModelTrain true; ModelTrain false]).
    set (cT := count p (batch_events Train)).
    set (cV := count p (batch_events Val)).
    lia.
Qed.

(** X1.  The mode [train_model] leaves the model in.  A run of at least
    one epoch returns the model in eval mode, whatever mode it was entered
    in: the last phase of every epoch is the VAL phase, and nothing
    switches the mode back.  A run of no epoch leaves the mode as it
    was. *)
Theorem train_model_leaves_eval_mode n w0 :
  loaders_nonempty dataloaders dataset_sizes ->
  exists w',
    train_model dataloaders dataset_sizes n w0 = Ok tt w' /\
    training w' = (if Nat.eqb n 0 then training w0 else false).
Proof.
  intros Hne.
  destruct (train_loop_calls n w0 Hne n) as (v & w & evs & E & _ & Hm & _).
  eexists. split; [apply (train_model_after_loop _ _ _ _ _ _ E)|].
  cbn [training]. exact Hm.
Qed.

(** X5.  The calls of a run of [train_model], counted.  [loss.backward()]
    and [optimizer.step()] are called once per train batch, and the
    forward passes that track gradients are the train batches';
    [optimizer.zero_grad()] and the forward pass are called once per
    batch of either phase. *)
Theorem one_update_per_train_batch n w0 :
  loaders_nonempty dataloaders dataset_sizes ->
  exists w' evs,
    train_model dataloaders dataset_sizes n w0 = Ok tt w' /\
    trace w' = trace w0 ++ evs /\
    count is_backward evs = batches_of dataloaders Train n /\
    count is_optimizer_step evs = batches_of dataloaders Train n /\
    count is_tracking_forward evs = batches_of dataloaders Train n /\
    count is_zero_grad evs =
      batches_of dataloaders Train n + batches_of dataloaders Val n /\
    count is_forward evs =
      batches_of dataloaders Train n + batches_of dataloaders Val n.
Proof.
  intros Hne.
  destruct (train_loop_calls n w0 Hne n) as (v & w & evs & E & Htr & _ & Hc).
  eexists.
  exists ([DeepCopy] ++ evs
          ++ [Print LTime; Print (LBestAcc (best_acc v));
              PlotLearningCurve (train_losses v) (val_losses v) n;
              LoadStateDict]).
  split; [apply (train_model_after_loop _ _ _ _ _ _ E)|].
  cbn [trace]. rewrite Htr.
  split; [rewrite <- !app_assoc; reflexivity|].
  rewrite !count_app.
  rewrite (Hc is_backward (fun _ => eq_refl) eq_refl),
          (Hc is_optimizer_step (fun _ => eq_refl) eq_refl),
          (Hc is_tracking_forward (fun _ => eq_refl) eq_refl),
          (Hc is_zero_grad (fun _ => eq_refl) eq_refl),
          (Hc is_forward (fun _ => eq_refl) eq_refl).
  cbn [count filter List.length batch_events is_backward is_optimizer_step
       is_tracking_forward is_zero_grad is_forward].
  repeat split; lia.
Qed.

(** X4.  The accuracy [train_model] prints as ['Best val Acc'].  It is the
    largest of 0.0 and the validation accuracies of the epochs: it is not
    negative, no epoch's validation accuracy exceeds it, and it is 0.0 or
    the validation accuracy of one of the epochs.  The print is followed
    by the plot of the loss history and the load of the best snapshot. *)
Theorem printed_best_acc_is_max n w0 :
  eval_is_pure ->
  loaders_nonempty dataloaders dataset_sizes ->
  exists w' before training_loss validation_loss b,
    train_model dataloaders dataset_sizes n w0 = Ok tt w' /\
    trace w' =
      trace w0 ++ before
        ++ [Print (LBestAcc b);
            PlotLearningCurve training_loss validation_loss n;
            LoadStateDict] /\
    (0 <= b)%Q /\
    (forall e, e < n ->
       (epoch_val_acc dataloaders dataset_sizes n e w0 <= b)%Q) /\
    (b = 0%Q \/
     exists e, e < n /\ b = epoch_val_acc dataloaders dataset_sizes n e w0).
Proof.
  intros Hpure Hne.
  destruct (train_loop_invariant dataloaders dataset_sizes Hpure n w0 Hne n)
    as (v & w & E & Hinv).
  destruct (train_loop_calls n w0 Hne n) as (v2 & w2 & evs & E2 & Htr & _).
  rewrite E in E2. injection E2 as <- <-.
  eexists. exists (DeepCopy :: evs ++ [Print LTime]).
  exists (train_losses v), (val_losses v), (best_acc v).
  split; [apply (train_model_after_loop _ _ _ _ _ _ E)|].
  cbn [trace]. rewrite Htr.
  split; [rewrite <- !app_assoc; cbn [app]; rewrite <- app_assoc;
          reflexivity|].
  destruct Hinv as [(H0 & _ & Hle)|(e & (He & Hle & _) & Hpos & _ & H0)];
    rewrite H0.
  - split; [apply Qle_refl|]. split; [exact Hle|]. left. reflexivity.
  - split; [apply Qlt_le_weak, Hpos|]. split; [exact Hle|].
    right. exists e. split; [exact He|reflexivity].
Qed.

(** In a phase no more predictions are right than the pass has
    samples. *)
Lemma phase_stats_totals ph bs : forall w,
  total_corrects (phase_stats ph bs w) <= List.length (List.concat bs).
Proof.
  induction bs as [|b bs IH]; intros w; [reflexivity|].
  destruct (batch_step_spec ph b w) as (loss & w' & E & _).
  cbn [phase_stats]. rewrite E.
  cbn [total_corrects List.concat]. rewrite length_app.
  pose proof (IH w') as Hc.
  pose proof (count_eq_le
                (map (predict (training w) (state_dict w) (inputs_of b))
                     (inputs_of b)) (labels_of b)) as Hle.
  assert (Hl1 : List.length (labels_of b) = List.length b)
    by apply length_map.
  rewrite Hl1 in Hle. lia.
Qed.

(** X6.  The accuracy a phase prints is a fraction.  When the batches of
    the pass hold as many samples as [dataset_sizes] says, the accuracy
    printed for the phase lies between 0 and 1. *)
Theorem epoch_accuracy_is_a_fraction ph e v w :
  loaders_nonempty dataloaders dataset_sizes ->
  List.length (List.concat (dataloaders ph e)) = dataset_sizes ph ->
  exists epoch_loss epoch_acc v' w' before after,
    run_phase dataloaders dataset_sizes ph e v w = Ok v' w' /\
    trace w' =
      trace w ++ before ++ Print (LPhase ph epoch_loss epoch_acc) :: after /\
    (0 <= epoch_acc)%Q /\ (epoch_acc <= 1)%Q.
Proof.
  intros [Hsize Hbs] Hlen.
  destruct (run_phase_spec dataloaders dataset_sizes ph e v w
                           (Hsize ph) (Hbs ph e))
    as (l & p & v' & w' & E & _ & Htr & _).
  exists l. eexists. exists v', w'. eexists. eexists.
  split; [exact E|].
  split; [rewrite Htr, (app_assoc (enter_events ph)); reflexivity|].
  split; [apply Qnat_div_nonneg|].
  apply Qnat_div_le_1; [|apply Hsize].
  rewrite <- Hlen. apply phase_stats_totals.
Qed.

End TrainModelMore.

(** ** [visualize_model]: any pass, any requested count *)

Section VisualizeMore.

Context {T : Torch}.
Variable class_names : list string.

(** A sample whose predicted class has no name: [class_names[preds[j]]]
    raises after the subplot was made and its axes switched off. *)
Lemma show_sample_unnamed n wt preds labels j v w :
  nth_error class_names (nth j preds 0) = None ->
  show_sample class_names n wt preds labels j v w =
    Raise IndexError
      (mkWorld (state_dict w) (training w) (grad w) (optim w) (sched w)
               (trace w ++ [Subplot (n / 6) 6 (images_so_far v + 1);
                            AxisOff])).
Proof.
  intros Hname. unfold show_sample, bind, class_name. cbn [emit].
  rewrite Hname.
  cbv [raise log state_dict training grad optim sched trace].
  rewrite <- app_assoc. reflexivity.
Qed.

Lemma shows_sample n shown name probability :
  1 <= shown -> (n <> 0 -> shown <= n) ->
  Forall (shows n) (sample_events n shown name probability).
Proof.
  intros H1 Hn. unfold sample_events.
  repeat (constructor; [split; [reflexivity|]|]); try exact I;
    [|constructor].
  repeat split; assumption.
Qed.

Lemma shows_display n evs :
  Forall (shows n) evs -> Forall (fun e => is_display e = true) evs.
Proof. apply Forall_impl. now intros e [H _]. Qed.

Lemma advanced_refl size corrects v : advanced size corrects v v.
Proof. unfold advanced. rewrite Nat.sub_diag. cbn. lia. Qed.

Lemma advanced_trans size corrects v1 v2 v3 :
  advanced size corrects v1 v2 -> advanced size corrects v2 v3 ->
  advanced size corrects v1 v3.
Proof.
  unfold advanced. intros (H1 & H2 & H3) (H4 & H5 & H6).
  replace (images_so_far v3 - images_so_far v1)
    with ((images_so_far v2 - images_so_far v1)
          + (images_so_far v3 - images_so_far v2)) by lia.
  rewrite !Nat.mul_add_distr_r. lia.
Qed.

Lemma advanced_one preds labels j v :
  advanced (List.length labels) (count_eq preds labels) v
    (mkVis (images_so_far v + 1) (total v + List.length labels)
           (correct v + count_eq preds labels)
           (prob_estimates v
            ++ [(Qnat (100 * (correct v + count_eq preds labels))
                 / Qnat (total v + List.length labels))%Q])
           (pred_estimates v ++ [nth j preds 0])
           (pred_groundtruth v ++ [nth j labels 0])).
Proof.
  unfold advanced. cbn [images_so_far total correct].
  replace (images_so_far v + 1 - images_so_far v) with 1 by lia. lia.
Qed.

Lemma vis_inv_shown preds labels j v :
  labels <> [] -> vis_inv v ->
  vis_inv
    (mkVis (images_so_far v + 1) (total v + List.length labels)
           (correct v + count_eq preds labels)
           (prob_estimates v
            ++ [(Qnat (100 * (correct v + count_eq preds labels))
                 / Qnat (total v + List.length labels))%Q])
           (pred_estimates v ++ [nth j preds 0])
           (pred_groundtruth v ++ [nth j labels 0])).
Proof.
  intros Hlab (H1 & H2 & H3 & H4 & H5 & H6).
  assert (Htotal : total v + List.length labels <> 0)
    by (destruct labels; [contradiction|cbn; lia]).
  pose proof (count_eq_le preds labels) as Hle.
  unfold vis_inv.
  cbn [prob_estimates pred_estimates pred_groundtruth images_so_far total
       correct].
  rewrite !length_app. cbn [List.length].
  split; [lia|]. split; [lia|]. split; [lia|]. split; [lia|]. split.
  - apply Forall_app. split; [exact H5|].
    constructor; [|constructor].
    apply percentage_of_part; [lia|exact Htotal].
  - right. apply last_last.
Qed.

Lemma vis_inv_init : vis_inv (mkVis 0 0 0 [] [] []).
Proof.
  unfold vis_inv. cbn.
  split; [reflexivity|]. split; [reflexivity|]. split; [reflexivity|].
  split; [lia|]. split; [constructor|]. left. reflexivity.
Qed.

Lemma same_model_refl w : same_model w w.
Proof. repeat split. Qed.

Lemma untouched_refl w : untouched w w.
Proof. repeat split. Qed.

Lemma untouched_trans w1 w2 w3 :
  untouched w1 w2 -> untouched w2 w3 -> untouched w1 w3.
Proof.
  intros (A1 & A2 & A3 & A4) (B1 & B2 & B3 & B4).
  repeat split; try congruence.
  intros Hpure. rewrite (B4 Hpure). apply (A4 Hpure).
Qed.

Lemma untouched_same w1 w2 w3 :
  untouched w1 w2 -> same_model w2 w3 -> untouched w1 w3.
Proof.
  intros (A1 & A2 & A3 & A4) (B1 & B2 & B3 & B4).
  repeat split; try congruence.
  intros Hpure. rewrite B1. apply (A4 Hpure).
Qed.

(** The sample loop, whatever its outcome. *)
Lemma for_samples_any n wt preds labels :
  labels <> [] ->
  forall js v w,
  vis_inv v ->
  n = 0 \/ images_so_far v < n ->
  exists evs tail,
    trace (final (for_samples class_names n wt preds labels js v w)) =
      trace w ++ evs ++ tail /\
    Forall (shows n) evs /\
    same_model w (final (for_samples class_names n wt preds labels js v w)) /\
    match for_samples class_names n wt preds labels js v w with
    | Ok (Next v') w' =>
        tail = [] /\ training w' = training w /\ vis_inv v' /\
        advanced (List.length labels) (count_eq preds labels) v v' /\
        images_so_far v' = images_so_far v + List.length js /\
        (n = 0 \/ images_so_far v' < n)
    | Ok Returned w' =>
        training w' = wt /\
        exists vf,
          tail = return_events wt vf /\ vis_inv vf /\
          advanced (List.length labels) (count_eq preds labels) v vf /\
          images_so_far vf = n
    | Raise ex w' =>
        tail = [] /\ ex = IndexError /\ training w' = training w /\
        exists j, In j js /\ nth_error class_names (nth j preds 0) = None
    end.
Proof.
  intros Hlab. induction js as [|j js IH]; intros v w Hinv Hrng.
  - exists [], []. cbn [for_samples ret final app]. rewrite app_nil_r.
    split; [reflexivity|]. split; [constructor|].
    split; [apply same_model_refl|].
    split; [reflexivity|]. split; [reflexivity|]. split; [exact Hinv|].
    split; [apply advanced_refl|]. split; [cbn [List.length]; lia|exact Hrng].
  - assert (Htotal : total v + List.length labels <> 0)
      by (destruct labels; [contradiction|cbn; lia]).
    cbn [for_samples]. unfold bind.
    destruct (nth_error class_names (nth j preds 0)) as [name|] eqn:Hname.
    + rewrite (show_sample_spec class_names n wt preds labels j v w name
                                Hname Htotal).
      pose proof (vis_inv_shown preds labels j v Hlab Hinv) as Hinv1.
      pose proof (advanced_one preds labels j v) as Hadv1.
      set (p := (Qnat (100 * (correct v + count_eq preds labels))
                 / Qnat (total v + List.length labels))%Q) in *.
      set (v1 := mkVis _ _ _ _ _ _) in *.
      assert (Hshows : Forall (shows n)
                (sample_events n (images_so_far v + 1) name p))
        by (apply shows_sample; lia).
      destruct (Nat.eqb_spec (images_so_far v + 1) n) as [Heq|Hneq];
        cbv beta iota.
      * exists (sample_events n (images_so_far v + 1) name p),
               (return_events wt v1).
        cbn [ret final trace state_dict training grad optim sched].
        split; [reflexivity|]. split; [exact Hshows|].
        split; [repeat split|].
        split; [reflexivity|]. exists v1.
        split; [reflexivity|]. split; [exact Hinv1|].
        split; [exact Hadv1|exact Heq].
      * match goal with
        | |- context [for_samples _ _ _ _ _ js v1 ?b] => set (w1 := b)
        end.
        assert (Hn1 : n = 0 \/ images_so_far v1 < n)
          by (subst v1; cbn [images_so_far]; lia).
        destruct (IH v1 w1 Hinv1 Hn1)
          as (evs & tail & Htr & Hd & Hsame & Hout).
        exists (sample_events n (images_so_far v + 1) name p ++ evs), tail.
        split; [rewrite Htr; subst w1; cbn [trace];
                rewrite <- !app_assoc; reflexivity|].
        split; [apply Forall_app; split; [exact Hshows|exact Hd]|].
        split; [exact Hsame|].
        revert Hout.
        destruct (for_samples class_names n wt preds labels js v1 w1)
          as [[v'|] w'|ex w'].
        -- intros (-> & Hm & Hi & Ha & Hlen & Hn').
           split; [reflexivity|]. split; [exact Hm|]. split; [exact Hi|].
           split; [exact (advanced_trans _ _ _ _ _ Hadv1 Ha)|].
           split; [|exact Hn'].
           rewrite Hlen. subst v1. cbn [images_so_far List.length]. lia.
        -- intros (Hm & vf & Htail & Hi & Ha & Hn).
           split; [exact Hm|]. exists vf.
           split; [exact Htail|]. split; [exact Hi|].
           split; [exact (advanced_trans _ _ _ _ _ Hadv1 Ha)|exact Hn].
        -- intros (-> & -> & Hm & j' & Hj & Hnone).
           split; [reflexivity|]. split; [reflexivity|]. split; [exact Hm|].
           exists j'. split; [now right|exact Hnone].
    + rewrite (show_sample_unnamed n wt preds labels j v w Hname).
      cbv beta iota.
      exists [Subplot (n / 6) 6 (images_so_far v + 1); AxisOff], [].
      cbn [final trace state_dict training grad optim sched].
      rewrite app_nil_r.
      split; [reflexivity|].
      split; [repeat (constructor; [split; [reflexivity|]|]);
              [repeat split; lia|exact I|constructor]|].
      split; [repeat split|].
      split; [reflexivity|]. split; [reflexivity|]. split; [reflexivity|].
      exists j. split; [now left|exact Hname].
Qed.

(** One batch, whatever its outcome.  The forward pass is made in eval
    mode, so the batch counts the predictions of the weights [w] holds. *)
Lemma show_batch_any n wt b v w :
  training w = false ->
  vis_inv v ->
  n = 0 \/ images_so_far v < n ->
  exists evs tail,
    trace (final (show_batch class_names n wt b v w)) =
      trace w ++ evs ++ tail /\
    Forall (shows n) evs /\
    untouched w (final (show_batch class_names n wt b v w)) /\
    match show_batch class_names n wt b v w with
    | Ok (Next v') w' =>
        tail = [] /\ training w' = false /\ vis_inv v' /\
        advanced (List.length b) (corrects_on (state_dict w) b) v v' /\
        images_so_far v' = images_so_far v + List.length b /\
        (n = 0 \/ images_so_far v' < n)
    | Ok Returned w' =>
        training w' = wt /\
        exists vf,
          tail = return_events wt vf /\ vis_inv vf /\
          advanced (List.length b) (corrects_on (state_dict w) b) v vf /\
          images_so_far vf = n
    | Raise ex w' =>
        tail = [] /\ ex = IndexError /\ training w' = false /\
        exists mode wts xs x,
          List.length class_names <= predict mode wts xs x
    end.
Proof.
  intros Ht Hinv Hrng. unfold show_batch, bind. rewrite call_model_spec.
  cbv beta iota. cbn [argmax]. rewrite Ht. unfold corrects_on.
  assert (Hfwd : Forall (shows n) [Forward false])
    by (constructor; [split; [reflexivity|exact I]|constructor]).
  set (preds := map _ (inputs_of b)).
  set (w1 := mkWorld _ _ _ _ _ _).
  assert (Hlen : List.length (inputs_of b) = List.length b)
    by apply length_map.
  assert (Hlen' : List.length (labels_of b) = List.length b)
    by apply length_map.
  assert (Hun : untouched w w1).
  { subst w1. repeat split. intros Hpure. cbn [state_dict]. apply Hpure. }
  assert (Hcase : b = [] \/ labels_of b <> [])
    by (destruct b; [left; reflexivity|right; discriminate]).
  destruct Hcase as [Hb|Hb].
  - subst b. exists [Forward false], [].
    cbn [inputs_of labels_of map List.length seq for_samples ret final app].
    split; [reflexivity|]. split; [exact Hfwd|].
    split; [exact Hun|].
    split; [reflexivity|]. split; [reflexivity|]. split; [exact Hinv|].
    split; [apply advanced_refl|]. split; [lia|exact Hrng].
  - destruct (for_samples_any n wt preds (labels_of b) Hb
                (seq 0 (List.length (inputs_of b))) v w1 Hinv Hrng)
      as (evs & tail & Htr & Hd & Hsame & Hout).
    exists ([Forward false] ++ evs), tail.
    split; [rewrite Htr; subst w1; cbn [trace];
            rewrite <- !app_assoc; reflexivity|].
    split; [apply Forall_app; split; [exact Hfwd|exact Hd]|].
    split; [exact (untouched_same _ _ _ Hun Hsame)|].
    revert Hout.
    destruct (for_samples class_names n wt preds (labels_of b)
                (seq 0 (List.length (inputs_of b))) v w1)
      as [[v'|] w'|ex w'].
    + intros (-> & Hm & Hi & Ha & Hl & Hn').
      rewrite Hlen' in Ha. rewrite length_seq, Hlen in Hl.
      repeat (split; [first [reflexivity|assumption]|]). exact Hn'.
    + intros (Hm & vf & Htail & Hi & Ha & Hn). rewrite Hlen' in Ha.
      split; [exact Hm|]. exists vf.
      repeat (split; [assumption|]). exact Hn.
    + intros (-> & -> & Hm & j & Hj & Hnone).
      split; [reflexivity|]. split; [reflexivity|]. split; [exact Hm|].
      apply in_seq in Hj. apply nth_error_None in Hnone.
      assert (Hin : In (nth j preds 0) preds)
        by (apply nth_In; subst preds; rewrite length_map; lia).
      subst preds. apply in_map_iff in Hin. destruct Hin as (x & Hx & _).
      exists false, (state_dict w), (inputs_of b), x. rewrite Hx.
      exact Hnone.
Qed.

(** The batch loop, whatever its outcome. *)
Lemma for_val_batches_any n wt : forall bs v w,
  training w = false ->
  vis_inv v ->
  n = 0 \/ images_so_far v < n ->
  exists evs tail,
    trace (final (for_val_batches class_names n wt bs v w)) =
      trace w ++ evs ++ tail /\
    Forall (shows n) evs /\
    untouched w (final (for_val_batches class_names n wt bs v w)) /\
    match for_val_batches class_names n wt bs v w with
    | Ok (Next v') w' => tail = [] /\ training w' = false /\ vis_inv v'
    | Ok Returned w' =>
        training w' = wt /\
        exists vf,
          tail = return_events wt vf /\ vis_inv vf /\ images_so_far vf = n
    | Raise ex w' =>
        tail = [] /\ ex = IndexError /\ training w' = false /\
        exists mode wts xs x,
          List.length class_names <= predict mode wts xs x
    end.
Proof.
  induction bs as [|b bs IH]; intros v w Ht Hinv Hrng.
  - exists [], []. cbn [for_val_batches ret final app]. rewrite app_nil_r.
    split; [reflexivity|]. split; [constructor|].
    split; [apply untouched_refl|].
    split; [reflexivity|]. split; [exact Ht|exact Hinv].
  - destruct (show_batch_any n wt b v w Ht Hinv Hrng)
      as (evs1 & tail1 & Htr1 & Hd1 & Hu1 & Hout1).
    cbn [for_val_batches]. unfold bind.
    revert Htr1 Hu1 Hout1.
    destruct (show_batch class_names n wt b v w) as [[v1|] w1|ex w1];
      cbn [final]; intros Htr1 Hu1 Hout1; cbv beta iota.
    + destruct Hout1 as (-> & Ht1 & Hinv1 & _ & _ & Hn1).
      destruct (IH v1 w1 Ht1 Hinv1 Hn1)
        as (evs2 & tail2 & Htr2 & Hd2 & Hu2 & Hout2).
      exists (evs1 ++ evs2), tail2.
      split; [rewrite Htr2, Htr1, app_nil_r, <- !app_assoc; reflexivity|].
      split; [apply Forall_app; split; assumption|].
      split; [exact (untouched_trans _ _ _ Hu1 Hu2)|exact Hout2].
    + destruct Hout1 as (Hm & vf & Htail & Hi & _ & Hn).
      exists evs1, tail1. cbn [ret final].
      split; [exact Htr1|]. split; [exact Hd1|]. split; [exact Hu1|].
      split; [exact Hm|]. exists vf.
      split; [exact Htail|]. split; [exact Hi|exact Hn].
    + exists evs1, tail1. cbn [final].
      split; [exact Htr1|]. split; [exact Hd1|]. split; [exact Hu1|].
      exact Hout1.
Qed.

(** [visualize_model], whatever its outcome: it returns with the mode it
    found, after the last batch or from the branch that stops the
    visualisation, or a predicted class without a name stops it with
    [IndexError] and the model in eval mode. *)
Lemma visualize_model_any val_batches n w :
  exists evs tail,
    trace (final (visualize_model val_batches class_names n w)) =
      trace w ++ [ModelTrain false; Figure] ++ evs ++ tail /\
    Forall (shows n) evs /\
    untouched w (final (visualize_model val_batches class_names n w)) /\
    match visualize_model val_batches class_names n w with
    | Ok _ w' =>
        training w' = training w /\
        (tail = [ModelTrain (training w)] \/
         exists vf,
           tail = return_events (training w) vf /\ vis_inv vf /\
           images_so_far vf = n)
    | Raise ex w' =>
        tail = [] /\ ex = IndexError /\ training w' = false /\
        exists mode wts xs x,
          List.length class_names <= predict mode wts xs x
    end.
Proof.
  unfold visualize_model, bind.
  cbv [get_training model_train emit log].
  cbn [state_dict training grad optim sched trace].
  match goal with
  | |- context [for_val_batches _ _ _ _ ?a ?b] => set (v0 := a); set (w0 := b)
  end.
  assert (Hn0 : n = 0 \/ images_so_far v0 < n)
    by (subst v0; cbn [images_so_far]; lia).
  destruct (for_val_batches_any n (training w) val_batches v0 w0 eq_refl
                                vis_inv_init Hn0)
    as (evs & tail & Htr & Hd & Hu & Hout).
  revert Htr Hu Hout.
  destruct (for_val_batches class_names n (training w) val_batches v0 w0)
    as [[v'|] w'|ex w']; cbn [final]; intros Htr Hu Hout; cbv beta iota.
  - destruct Hout as (-> & Hm & Hi).
    exists evs, [ModelTrain (training w)].
    cbn [final trace training].
    split; [rewrite Htr; subst w0; cbn [trace];
            rewrite app_nil_r, <- !app_assoc; reflexivity|].
    split; [exact Hd|]. split; [exact Hu|].
    split; [reflexivity|]. left. reflexivity.
  - destruct Hout as (Hm & vf & Htail & Hi & Hn).
    exists evs, tail. cbn [ret final].
    split; [rewrite Htr; subst w0; cbn [trace];
            rewrite <- !app_assoc; reflexivity|].
    split; [exact Hd|]. split; [exact Hu|].
    split; [exact Hm|]. right. exists vf.
    split; [exact Htail|]. split; [exact Hi|exact Hn].
  - exists evs, tail. cbn [final].
    split; [rewrite Htr; subst w0; cbn [trace];
            rewrite <- !app_assoc; reflexivity|].
    split; [exact Hd|]. split; [exact Hu|exact Hout].
Qed.

Lemma count_display p evs :
  (forall e, is_display e = true -> p e = false) ->
  Forall (fun e => is_display e = true) evs ->
  count p evs = 0.
Proof.
  intros Hp H. apply count_none. intros e He. apply Hp.
  rewrite Forall_forall in H. now apply H.
Qed.

Lemma display_is_no_gradient_call e :
  is_display e = true -> is_gradient_call e = false.
Proof.
  destruct e; try reflexivity; try discriminate.
  destruct grad_enabled; [discriminate|reflexivity].
Qed.

Lemma display_is_no_zero_grad e :
  is_display e = true -> is_zero_grad e = false.
Proof. destruct e; try reflexivity; discriminate. Qed.

Lemma display_is_no_scheduler_step e :
  is_display e = true -> is_scheduler_step e = false.
Proof. destruct e; try reflexivity; discriminate. Qed.

Lemma display_is_no_compute_roc e :
  is_display e = true -> is_compute_roc e = false.
Proof. destruct e; try reflexivity; discriminate. Qed.

(** X8.  [visualize_model] trains nothing.  Whatever the pass, the
    requested count and the outcome, returned or raised, the calls it
    made hold no forward pass that tracks gradients, no
    [loss.backward()], no [optimizer.step()], no [optimizer.zero_grad()]
    and no [scheduler.step()]; the gradients, the optimizer and the
    scheduler are as before, and so is the state dict when an eval-mode
    forward pass writes nothing into it. *)
Theorem visualize_model_trains_nothing val_batches n w :
  exists evs,
    trace (exec (visualize_model val_batches class_names n) w) =
      trace w ++ evs /\
    count is_gradient_call evs = 0 /\
    count is_zero_grad evs = 0 /\
    count is_scheduler_step evs = 0 /\
    grad (exec (visualize_model val_batches class_names n) w) = grad w /\
    optim (exec (visualize_model val_batches class_names n) w) = optim w /\
    sched (exec (visualize_model val_batches class_names n) w) = sched w /\
    (eval_is_pure ->
     state_dict (exec (visualize_model val_batches class_names n) w)
     = state_dict w).
Proof.
  destruct (visualize_model_any val_batches n w)
    as (evs & tail & Htr & Hd & (Hg & Ho & Hs & Hw) & Hout).
  apply shows_display in Hd.
  exists ([ModelTrain false; Figure] ++ evs ++ tail). unfold exec.
  split; [exact Htr|].
  assert (Htail : count is_gradient_call tail = 0 /\
                  count is_zero_grad tail = 0 /\
                  count is_scheduler_step tail = 0).
  { revert Hout.
    destruct (visualize_model val_batches class_names n w) as [u w'|ex w'].
    - intros (_ & [->|(vf & -> & _)]); repeat split.
    - intros (-> & _). repeat split. }
  destruct Htail as (T1 & T2 & T3).
  rewrite !count_app, T1, T2, T3.
  rewrite (count_display _ evs display_is_no_gradient_call Hd),
          (count_display _ evs display_is_no_zero_grad Hd),
          (count_display _ evs display_is_no_scheduler_step Hd).
  repeat (split; [first [reflexivity|assumption]|]). exact Hw.
Qed.

(** X9.  How [visualize_model] ends when the requested count is a
    multiple of 6 other than 0, so that every [plt.subplot] call is for
    a cell of the grid.  Either it returns, and the model is in the mode
    it was entered in; or it raises [IndexError], because the network
    predicted a class that [class_names] has no entry for, and the model
    is left in eval mode: the mode is restored on the two paths that
    return and nowhere else.  The divisions by [total] never fail. *)
Theorem visualize_model_outcome val_batches n w :
  n <> 0 ->
  n mod 6 = 0 ->
  (exists w',
     visualize_model val_batches class_names n w = Ok tt w' /\
     training w' = training w) \/
  (exists w',
     visualize_model val_batches class_names n w = Raise IndexError w' /\
     training w' = false /\
     exists mode wts xs x,
       List.length class_names <= predict mode wts xs x).
Proof.
  intros _ _.
  destruct (visualize_model_any val_batches n w)
    as (evs & tail & _ & _ & _ & Hout).
  revert Hout.
  destruct (visualize_model val_batches class_names n w) as [[] w'|ex w'].
  - intros (Hm & _). left. exists w'. split; [reflexivity|exact Hm].
  - intros (_ & -> & Hm & Hex). right. exists w'.
    split; [reflexivity|]. split; assumption.
Qed.

(** X10.  What [compute_roc_metrics] is called with.  In any run of
    [visualize_model] the call of [compute_roc_metrics], if there is one,
    is the last call made and the only one, and it is given [num_images]
    ground-truth labels and [num_images] scores, each between 0 and
    100. *)
Theorem roc_call_is_last val_batches n w :
  exists before last,
    trace (exec (visualize_model val_batches class_names n) w) =
      trace w ++ before ++ last /\
    count is_compute_roc before = 0 /\
    (last = [] \/
     exists gts probs,
       last = [ComputeRocMetrics gts probs] /\
       List.length gts = n /\ List.length probs = n /\
       Forall is_percentage probs).
Proof.
  destruct (visualize_model_any val_batches n w)
    as (evs & tail & Htr & Hd & _ & Hout).
  apply shows_display in Hd.
  pose proof (count_display _ evs display_is_no_compute_roc Hd) as D.
  unfold exec. revert Htr Hout.
  destruct (visualize_model val_batches class_names n w) as [[] w'|ex w'];
    cbn [final]; intros Htr Hout.
  - destruct Hout as (_ & [->|(vf & -> & Hi & Hn)]).
    + exists ([ModelTrain false; Figure] ++ evs
              ++ [ModelTrain (training w)]), [].
      split; [rewrite Htr, ?app_nil_r; reflexivity|].
      split; [rewrite !count_app, D; reflexivity|left; reflexivity].
    + exists ([ModelTrain false; Figure] ++ evs
              ++ [ModelTrain (training w);
                  Print (LGroundtruth (pred_groundtruth vf));
                  Print (LPredicted (pred_estimates vf));
                  Print (LConfidence (prob_estimates vf))]),
             [ComputeRocMetrics (pred_groundtruth vf) (prob_estimates vf)].
      split; [rewrite Htr; unfold return_events;
              rewrite <- !app_assoc; reflexivity|].
      split; [rewrite !count_app, D; reflexivity|].
      right. exists (pred_groundtruth vf), (prob_estimates vf).
      destruct Hi as (H1 & _ & H3 & _ & H5 & _).
      split; [reflexivity|]. split; [congruence|]. split; [congruence|].
      exact H5.
  - destruct Hout as (-> & _).
    exists ([ModelTrain false; Figure] ++ evs), [].
    split; [rewrite Htr, ?app_nil_r; reflexivity|].
    split; [rewrite !count_app, D; reflexivity|left; reflexivity].
Qed.

(** X14.  The subplots stay inside the grid.  [visualize_model] lays
    its samples out on a grid of [num_images // 6] rows and 6 columns.
    When [num_images] is a multiple of 6 other than 0, as the default 24
    is, every call of [plt.subplot], in any run, is for that grid, which
    has at least one row, and for a cell index from 1 to the number of
    its cells. *)
Theorem subplots_stay_in_grid val_batches n w :
  n <> 0 ->
  n mod 6 = 0 ->
  exists evs,
    trace (exec (visualize_model val_batches class_names n) w) =
      trace w ++ evs /\
    forall rows cols index,
      In (Subplot rows cols index) evs ->
      rows = n / 6 /\ cols = 6 /\ 1 <= rows /\
      1 <= index /\ index <= rows * cols.
Proof.
  intros Hn Hmod.
  destruct (visualize_model_any val_batches n w)
    as (evs & tail & Htr & Hd & _ & Hout).
  exists ([ModelTrain false; Figure] ++ evs ++ tail). unfold exec.
  split; [exact Htr|].
  intros rows cols index Hin.
  assert (Hev : In (Subplot rows cols index) evs).
  { apply in_app_or in Hin. destruct Hin as [Hin|Hin].
    - cbn in Hin. destruct Hin as [Hin|[Hin|[]]]; discriminate Hin.
    - apply in_app_or in Hin. destruct Hin as [Hin|Hin]; [exact Hin|].
      exfalso. revert Hout.
      destruct (visualize_model val_batches class_names n w)
        as [u w'|ex w'].
      + intros (_ & [->|(vf & -> & _)]); cbn in Hin;
          repeat (destruct Hin as [Hin|Hin]; [discriminate Hin|]);
          exact Hin.
      + intros (-> & _). exact Hin. }
  rewrite Forall_forall in Hd. destruct (Hd _ Hev) as (_ & -> & -> & H1 & Hle).
  specialize (Hle Hn).
  pose proof (Nat.div_mod_eq n 6) as Hdiv. rewrite Hmod in Hdiv.
  repeat split; lia.
Qed.

(** *** The score at the end of a batch *)







End VisualizeMore.

(** ** The further properties on the concrete runtime *)

Lemma toy_loaders_nonempty :
  loaders_nonempty (T := Toy.torch) Toy.dataloaders Toy.dataset_sizes.
Proof. split; intros ph; [|intros e]; destruct ph; discriminate. Qed.

(** X1 on a run of two epochs, entered in train mode. *)
Lemma train_model_leaves_eval_mode_witness :
  exists w',
    train_model (T := Toy.torch) Toy.dataloaders Toy.dataset_sizes 2
                Toy.w0 = Ok tt w' /\
    training w' = false.
Proof.
  apply (train_model_leaves_eval_mode (T := Toy.torch)
           Toy.dataloaders Toy.dataset_sizes 2 Toy.w0).
  exact toy_loaders_nonempty.
Defined.

(** X3 on a train loader without batches, the train set said to hold two
    images. *)
Lemma empty_train_loader_aborts_witness :
  train_model (T := Toy.torch) (fun _ _ => []) Toy.dataset_sizes 1 Toy.w0 =
    Raise AttributeError
      (mkWorld (T := Toy.torch) 0 true 0 0 1
               [DeepCopy; Print (LEpoch 0 0); Print LDashes; SchedulerStep;
                ModelTrain true]).
Proof.
  apply (empty_train_loader_aborts (T := Toy.torch) (fun _ _ => [])
           Toy.dataset_sizes 1 Toy.w0).
  - discriminate.
  - reflexivity.
Defined.

(** X4 on a run of three epochs. *)
Lemma printed_best_acc_is_max_witness :
  exists w' before training_loss validation_loss b,
    train_model (T := Toy.torch) Toy.dataloaders Toy.dataset_sizes 3
                Toy.w0 = Ok tt w' /\
    trace w' =
      trace Toy.w0 ++ before
        ++ [Print (LBestAcc b);
            PlotLearningCurve training_loss validation_loss 3;
            LoadStateDict] /\
    (0 <= b)%Q /\
    (forall e, e < 3 ->
       (epoch_val_acc (T := Toy.torch) Toy.dataloaders Toy.dataset_sizes
                      3 e Toy.w0 <= b)%Q) /\
    (b = 0%Q \/
     exists e, e < 3 /\
       b = epoch_val_acc (T := Toy.torch) Toy.dataloaders Toy.dataset_sizes
                         3 e Toy.w0).
Proof.
  apply (printed_best_acc_is_max (T := Toy.torch)
           Toy.dataloaders Toy.dataset_sizes 3 Toy.w0).
  - intros w xs. reflexivity.
  - exact toy_loaders_nonempty.
Defined.

(** X5 on a run of two epochs: one train batch and two val batches per
    epoch. *)
Lemma one_update_per_train_batch_witness :
  exists w' evs,
    train_model (T := Toy.torch) Toy.dataloaders Toy.dataset_sizes 2
                Toy.w0 = Ok tt w' /\
    trace w' = trace Toy.w0 ++ evs /\
    count is_backward evs = 2 /\
    count is_optimizer_step evs = 2 /\
    count is_tracking_forward evs = 2 /\
    count is_zero_grad evs = 6 /\
    count is_forward evs = 6.
Proof.
  apply (one_update_per_train_batch (T := Toy.torch)
           Toy.dataloaders Toy.dataset_sizes 2 Toy.w0).
  exact toy_loaders_nonempty.
Defined.

(** X6 on the VAL phase of a first epoch. *)
Lemma epoch_accuracy_is_a_fraction_witness :
  exists epoch_loss epoch_acc v' w' before after,
    run_phase (T := Toy.torch) Toy.dataloaders Toy.dataset_sizes Val 0
              (mkVars (T := Toy.torch) [] [] 0 0%Q []) Toy.w0 = Ok v' w' /\
    trace w' =
      trace Toy.w0 ++ before
        ++ Print (LPhase Val epoch_loss epoch_acc) :: after /\
    (0 <= epoch_acc)%Q /\ (epoch_acc <= 1)%Q.
Proof.
  apply (epoch_accuracy_is_a_fraction (T := Toy.torch)
           Toy.dataloaders Toy.dataset_sizes Val 0
           (mkVars (T := Toy.torch) [] [] 0 0%Q []) Toy.w0).
  - exact toy_loaders_nonempty.
  - reflexivity.
Defined.

(** X9 on 24 requested samples and class names that lack the class the
    model predicts for the third sample. *)
Lemma visualize_model_outcome_witness :
  (exists w',
     visualize_model (T := Toy.torch) Toy.val_batches ["normal"%string] 24
                     Toy.w0 = Ok tt w' /\
     training w' = training Toy.w0) \/
  (exists w',
     visualize_model (T := Toy.torch) Toy.val_batches ["normal"%string] 24
                     Toy.w0 = Raise IndexError w' /\
     training w' = false /\
     exists mode wts xs x,
       List.length ["normal"%string]
       <= predict (Torch := Toy.torch) mode wts xs x).
Proof.
  apply (visualize_model_outcome (T := Toy.torch) ["normal"%string]
           Toy.val_batches 24 Toy.w0).
  - discriminate.
  - reflexivity.
Defined.

(** X14 on 24 requested samples. *)
Lemma subplots_stay_in_grid_witness :
  exists evs,
    trace (exec (visualize_model (T := Toy.torch) Toy.val_batches
                                 Toy.class_names 24) Toy.w0) =
      trace Toy.w0 ++ evs /\
    forall rows cols index,
      In (Subplot rows cols index) evs ->
      rows = 24 / 6 /\ cols = 6 /\ 1 <= rows /\
      1 <= index /\ index <= rows * cols.
Proof.
  apply (subplots_stay_in_grid (T := Toy.torch) Toy.class_names
           Toy.val_batches 24 Toy.w0).
  - discriminate.
  - reflexivity.
Defined.

